(** * MoodBoard Agent: the browser client

    A shallow embedding of the React front end of moodboard-agent:

    - [App]                   the request orchestrator (state flags, submit, reset, render),
    - [ImageUpload]           the upload capture component (handlers and render),
    - [MoodDisplay]           the mood panel,
    - [MusicRecommendations]  the track and playlist panel.

    Component state is explicit: every handler is an [Action] on a [World]
    that holds the [useState] cells of the mounted components together with
    what the browser keeps for them (requests sent, promises not yet settled,
    alerts shown, file readers still reading).  An [await] splits a handler
    into the part that runs before the suspension and the part that runs when
    the promise settles; the event loop is the [step] function. *)

From Stdlib Require Import ZArith QArith Qround String Ascii List Bool Floats Lia.
From stdpp Require Import base strings gmap pretty.
Import ListNotations.

Set Warnings "-register-all,-inexact-float".

Local Open Scope list_scope.
Local Open Scope string_scope.

(** ** JavaScript strings

    Strings are byte strings; the labels and MIME types the client handles
    are ASCII, where the operations below agree with the methods of
    [String.prototype]. *)

Definition toLowerCase_char (c : ascii) : ascii :=
  let n := nat_of_ascii c in
  if (65 <=? n)%nat && (n <=? 90)%nat then ascii_of_nat (n + 32) else c.

Fixpoint toLowerCase (s : string) : string :=
  match s with
  | EmptyString => EmptyString
  | String c rest => String (toLowerCase_char c) (toLowerCase rest)
  end.

(** [s.startsWith(p)] *)
Fixpoint startsWith (s p : string) : bool :=
  match p, s with
  | EmptyString, _ => true
  | String _ _, EmptyString => false
  | String a p', String b s' => Ascii.eqb a b && startsWith s' p'
  end.

Fixpoint repeat_char (c : ascii) (n : nat) : string :=
  match n with
  | O => EmptyString
  | S k => String c (repeat_char c k)
  end.

(** [s.padStart(target, fill)] for a one-character [fill]. *)
Definition padStart (target : nat) (fill : ascii) (s : string) : string :=
  repeat_char fill (target - String.length s) ++ s.

(** Truthiness of a string: only the empty string is falsy. *)
Definition truthy_string (s : string) : bool :=
  match s with EmptyString => false | String _ _ => true end.

(** ** Optional fields of a decoded JSON object

    A property read yields [undefined] when the key is absent, [null] when the
    body says so, and the value otherwise. *)

Inductive maybe (A : Type) : Type :=
| Undefined
| Null
| Have (a : A).

Arguments Undefined {A}.
Arguments Null {A}.
Arguments Have {A} a.

(** ** The data model of the analysis response *)

Module Track.
Record t := mk {
  name : string;
  artist : string;
  album : string;
  duration_ms : Z;
  image : maybe string;
  preview_url : maybe string;
  url : maybe string
}.
End Track.

Module Playlist.
Record t := mk {
  name : string;
  description : maybe string;
  tracks : maybe Z;
  image : maybe string;
  url : maybe string
}.
End Playlist.

Module Recommendations.
Record t := mk {
  mood : string;
  mood_description : string;
  genres : maybe (list string);
  track_count : Z;
  tracks : list Track.t
}.
End Recommendations.

Module MoodAnalysis.
Record t := mk {
  primary_mood : string;
  confidence : float;
  secondary_moods : maybe (list string);
  reasoning : maybe string;
  visual_elements : maybe (list (string * string))
}.
End MoodAnalysis.

Module AnalysisResult.
Record t := mk {
  mood_analysis : MoodAnalysis.t;
  music_recommendations : Recommendations.t;
  playlists : maybe (list Playlist.t)
}.
End AnalysisResult.

(** ** Files, requests and responses *)

Module File.
Record t := mk {
  name : string;
  type : string;      (* the declared MIME type *)
  bytes : string
}.
End File.

(** A [FormData] is the list of its appended fields. *)
Definition FormData := list (string * File.t).

Definition FormData_append (fd : FormData) (field : string) (f : File.t) : FormData :=
  (fd ++ [(field, f)])%list.

Module Request.
Record t := mk {
  url : string;
  method : string;
  body : FormData
}.
End Request.

(** What [response.json()] settles to.  A body that decodes is taken to have
    the shape of the data model; the source stores whatever decodes, without
    a check, so a body such as [null] or [{}] is outside this model. *)
Inductive JsonBody :=
| Decoded (data : AnalysisResult.t)
| Malformed (message : string).

Module Response.
Record t := mk {
  status : Z;
  json : JsonBody
}.
(** [response.ok]: the status is in the range 200-299. *)
Definition ok (r : t) : bool := ((200 <=? status r) && (status r <=? 299))%Z.
End Response.

(** What the promise returned by [fetch] settles to: rejected with an error
    (network failure; [message] is [err.message]) or resolved with a response. *)
Inductive FetchOutcome :=
| Rejected (message : string)
| Resolved (response : Response.t).

(** ** Component state *)

(** The four [useState] cells of [App]. *)
Record AppState := mkApp {
  analyzing : bool;
  result : option AnalysisResult.t;     (* [None] is [null] *)
  error : option string;
  resetKey : nat
}.

(** The two [useState] cells of [ImageUpload]. *)
Record UploadState := mkUpload {
  dragActive : bool;
  preview : option string
}.

Definition App_initial : AppState := mkApp false None None 0.
Definition ImageUpload_initial : UploadState := mkUpload false None.

(** What the browser holds on behalf of the page. *)
Record Browser := mkBrowser {
  outbound : list Request.t;          (* every request sent, oldest first *)
  in_flight : list nat;               (* positions in [outbound] of the fetches not settled yet *)
  alerts : list string;               (* every [alert] shown *)
  readers : list (nat * File.t)       (* file readers still reading, with the key of
                                         the [ImageUpload] instance that owns each *)
}.

Record World := mkWorld {
  app : AppState;
  upload_key : nat;                   (* the key of the mounted [ImageUpload] instance *)
  upload : UploadState;
  browser : Browser
}.

Definition World_initial : World :=
  mkWorld App_initial 0 ImageUpload_initial (mkBrowser [] [] [] []).

(** ** Actions *)

Definition Action := World -> World.

Definition skip : Action := fun w => w.
Definition andThen (a b : Action) : Action := fun w => b (a w).
Notation "a >> b" := (andThen a b) (at level 62, right associativity).

Definition on_app (f : AppState -> AppState) : Action :=
  fun w => mkWorld (f (app w)) (upload_key w) (upload w) (browser w).
Definition on_upload (f : UploadState -> UploadState) : Action :=
  fun w => mkWorld (app w) (upload_key w) (f (upload w)) (browser w).
Definition on_browser (f : Browser -> Browser) : Action :=
  fun w => mkWorld (app w) (upload_key w) (upload w) (f (browser w)).

Definition setAnalyzing (b : bool) : Action :=
  on_app (fun s => mkApp b (result s) (error s) (resetKey s)).
Definition setResult (r : option AnalysisResult.t) : Action :=
  on_app (fun s => mkApp (analyzing s) r (error s) (resetKey s)).
Definition setError (e : option string) : Action :=
  on_app (fun s => mkApp (analyzing s) (result s) e (resetKey s)).
Definition setResetKey (f : nat -> nat) : Action :=
  on_app (fun s => mkApp (analyzing s) (result s) (error s) (f (resetKey s))).

Definition setDragActive (b : bool) : Action :=
  on_upload (fun u => mkUpload b (preview u)).
Definition setPreview (p : option string) : Action :=
  on_upload (fun u => mkUpload (dragActive u) p).

Definition alert (message : string) : Action :=
  on_browser (fun b => mkBrowser (outbound b) (in_flight b) (alerts b ++ [message])%list (readers b)).

(** [fetch(url, init)]: the request leaves now; the promise is in flight
    until the event loop delivers its outcome. *)
Definition fetch (url method : string) (body : FormData) : Action :=
  on_browser (fun b =>
    mkBrowser (outbound b ++ [Request.mk url method body])%list
              (in_flight b ++ [length (outbound b)])%list
              (alerts b) (readers b)).

(** [new FileReader()] with an [onloadend] that sets the preview of the
    instance that created it, then [reader.readAsDataURL(file)]. *)
Definition readAsDataURL (file : File.t) : Action :=
  fun w => on_browser (fun b =>
    mkBrowser (outbound b) (in_flight b) (alerts b) (readers b ++ [(upload_key w, file)])%list) w.

(** ** ImageUpload: the handlers *)

Section ImageUpload.
(** The prop [onImageUpload]. *)
Variable onImageUpload : File.t -> Action.

Definition handleDrag (type : string) : Action :=
  if (type =? "dragenter") || (type =? "dragover") then setDragActive true
  else if type =? "dragleave" then setDragActive false
  else skip.

Definition handleFile (file : File.t) : Action :=
  if negb (startsWith (File.type file) "image/") then
    alert "Please upload an image file"
  else
    readAsDataURL file >>
    onImageUpload file.

(** [files] is [e.dataTransfer.files]. *)
Definition handleDrop (files : list File.t) : Action :=
  setDragActive false >>
  match files with
  | f :: _ => handleFile f
  | [] => skip
  end.

(** [files] is [e.target.files]. *)
Definition handleChange (files : list File.t) : Action :=
  match files with
  | f :: _ => handleFile f
  | [] => skip
  end.

(** [inputRef.current.click()] opens the file picker; a selection made
    there arrives later as a change event. *)
Definition onButtonClick : Action := skip.
End ImageUpload.

(** ** App: the orchestrator *)

Definition analyze_url : string :=
  "http://localhost:8000/analyze?track_limit=20&include_playlists=true".

(** [handleImageUpload] up to [await fetch(...)]. *)
Definition handleImageUpload (file : File.t) : Action :=
  setAnalyzing true >>
  setError None >>
  setResult None >>
  fetch analyze_url "POST" (FormData_append [] "file" file).

(** [handleImageUpload] from the point where the promise settles: the rest of
    the [try] block, the [catch] and the [finally].  Nothing is stored between
    [await fetch(...)] and [await response.json()], so the two suspensions are
    taken as one: the outcome carries the response and what its body decodes
    to. *)
Definition handleImageUpload_resume (o : FetchOutcome) : Action :=
  match o with
  | Rejected message => setError (Some message)
  | Resolved response =>
      if negb (Response.ok response) then
        setError (Some "Failed to analyze image")
      else
        match Response.json response with
        | Decoded data => setResult (Some data)
        | Malformed message => setError (Some message)
        end
  end >>
  setAnalyzing false.

Definition handleReset : Action :=
  setResult None >>
  setError None >>
  setAnalyzing false >>
  setResetKey (fun prev => prev + 1).

(** [result || error] as a condition. *)
Definition result_or_error (s : AppState) : bool :=
  match result s, error s with
  | Some _, _ => true
  | None, Some e => truthy_string e
  | None, None => false
  end.

(** ** The event loop *)

Inductive Event :=
| Drag (type : string)                          (* dragenter, dragover or dragleave on the upload area *)
| Drop (files : list File.t)                    (* drop on the upload area *)
| Change (files : list File.t)                  (* change on the file input *)
| Click                                         (* click on the upload area *)
| ReaderLoadEnd (i : nat) (dataURL : string)    (* the [i]-th pending reader has finished *)
| FetchSettled (id : nat) (o : FetchOutcome)    (* the fetch of request [id] has settled *)
| ResetClick.                                   (* click on the reset button *)

Fixpoint remove_nth {A} (i : nat) (l : list A) : list A :=
  match i, l with
  | _, [] => []
  | O, _ :: rest => rest
  | S j, x :: rest => x :: remove_nth j rest
  end.

Definition remove_id (id : nat) (l : list nat) : list nat :=
  List.filter (fun j => negb (Nat.eqb j id)) l.

(** After a state update React renders [App] again; an [ImageUpload] element
    whose [key] differs from the mounted one replaces it by a fresh instance. *)
Definition reconcile : Action := fun w =>
  if Nat.eqb (upload_key w) (resetKey (app w)) then w
  else mkWorld (app w) (resetKey (app w)) ImageUpload_initial (browser w).

Definition settle_fetch (id : nat) : Action :=
  on_browser (fun b => mkBrowser (outbound b) (remove_id id (in_flight b)) (alerts b) (readers b)).

Definition finish_reader (i : nat) : Action :=
  on_browser (fun b => mkBrowser (outbound b) (in_flight b) (alerts b) (remove_nth i (readers b))).

Definition dispatch (ev : Event) : Action := fun w =>
  match ev with
  | Drag type => handleDrag type w
  | Drop files => handleDrop handleImageUpload files w
  | Change files => handleChange handleImageUpload files w
  | Click => onButtonClick w
  | ReaderLoadEnd i dataURL =>
      match nth_error (readers (browser w)) i with
      | Some (owner, _) =>
          (finish_reader i >>
           if Nat.eqb owner (upload_key w) then setPreview (Some dataURL) else skip) w
      | None => w
      end
  | FetchSettled id o =>
      if existsb (Nat.eqb id) (in_flight (browser w)) then
        (settle_fetch id >> handleImageUpload_resume o) w
      else w
  | ResetClick =>
      (* the button is rendered only under [result || error] *)
      if result_or_error (app w) then handleReset w else w
  end.

Definition step (ev : Event) : Action := dispatch ev >> reconcile.

(** The world after a sequence of events, oldest first. *)
Definition run (evs : list Event) (w : World) : World :=
  fold_left (fun acc ev => step ev acc) evs w.

(** ** JavaScript numbers

    A finite Number is a binary64 value; [exact] gives it as a rational.
    Integers are printed by [pretty]. *)

Definition digits (n : Z) : string := pretty (Z.to_N n).

Definition pow10 (n : Z) : Q :=
  if (0 <=? n)%Z then inject_Z (10 ^ n) else Qinv (inject_Z (10 ^ (- n))).

Definition pow2 (n : Z) : Q :=
  if (0 <=? n)%Z then inject_Z (2 ^ n) else Qinv (inject_Z (2 ^ (- n))).

Definition Qltb (a b : Q) : bool := negb (Qle_bool b a).

(** The value [m * 2^e] of a finite binary64 number. *)
Definition exact (m : positive) (e : Z) : Q := Qred (inject_Z (Z.pos m) * pow2 e)%Q.

(** *** Number::toString, radix 10

    The digits are the shortest decimal [s * 10^(n-k)], with [k] digits, that
    reads back as the same binary64 value; among several of that length, the
    one closest to the value. *)

(** The interval of the reals that round to [m * 2^e], and whether its end
    points belong to it (ties go to the even significand). *)
Definition rounds_to (m : positive) (e : Z) (d : Q) : bool :=
  let v := exact m e in
  let half_up := pow2 (e - 1) in
  let half_down :=
    if (Z.pos m =? 2 ^ 52)%Z && (-1074 <? e)%Z then pow2 (e - 2) else pow2 (e - 1) in
  let lo := (v - half_down)%Q in
  let hi := (v + half_up)%Q in
  (Qltb lo d && Qltb d hi) || (Z.even (Z.pos m) && (Qeq_bool d lo || Qeq_bool d hi)).

(** The [n] with [10^(n-1) <= v < 10^n], for [v > 0]. *)
Fixpoint decade_up (fuel : nat) (v : Q) (n : Z) : Z :=
  match fuel with
  | O => n
  | S f => if Qltb v (pow10 n) then n else decade_up f v (n + 1)
  end.

Fixpoint decade_down (fuel : nat) (v : Q) (n : Z) : Z :=
  match fuel with
  | O => n
  | S f => if Qle_bool (pow10 (n - 1)) v then n else decade_down f v (n - 1)
  end.

Definition decade (v : Q) : Z :=
  if Qle_bool 1%Q v then decade_up 400 v 1 else decade_down 400 v 0.

(** The best decimal with [k] digits, if one reads back as the value: the
    pair [(s, n)]. *)
Definition shortest_at (m : positive) (e : Z) (k : Z) : option (Z * Z) :=
  let v := exact m e in
  let n := decade v in
  let scale := pow10 (n - k) in
  let s_lo := Qfloor (v / scale)%Q in
  let s_hi := (s_lo + 1)%Z in
  let d_lo := (inject_Z s_lo * scale)%Q in
  let d_hi := (inject_Z s_hi * scale)%Q in
  let ok_lo := rounds_to m e d_lo in
  let ok_hi := rounds_to m e d_hi in
  let up := if (s_hi =? 10 ^ k)%Z then (10 ^ (k - 1), n + 1)%Z else (s_hi, n) in
  match ok_lo, ok_hi with
  | false, false => None
  | true, false => Some (s_lo, n)
  | false, true => Some up
  | true, true =>
      let below := (v - d_lo)%Q in
      let above := (d_hi - v)%Q in
      if Qltb below above then Some (s_lo, n)
      else if Qltb above below then Some up
      else if Z.even s_lo then Some (s_lo, n) else Some up
  end.

Fixpoint shortest_from (fuel : nat) (m : positive) (e : Z) (k : Z) : Z * Z * Z :=
  match fuel with
  | O => (k, 0, 0)%Z
  | S f =>
      match shortest_at m e k with
      | Some (s, n) => (k, s, n)
      | None => shortest_from f m e (k + 1)
      end
  end.

(** Seventeen digits always suffice for binary64. *)
Definition shortest (m : positive) (e : Z) : Z * Z * Z := shortest_from 17 m e 1.

Definition zeros (n : Z) : string := repeat_char "0"%char (Z.to_nat n).

Definition substring_from (i : Z) (s : string) : string :=
  String.substring (Z.to_nat i) (String.length s - Z.to_nat i) s.

Definition substring_to (i : Z) (s : string) : string :=
  String.substring 0 (Z.to_nat i) s.

Definition positive_toString (m : positive) (e : Z) : string :=
  let '(k, s, n) := shortest m e in
  let d := digits s in
  if (k <=? n)%Z && (n <=? 21)%Z then d ++ zeros (n - k)
  else if (0 <? n)%Z && (n <=? 21)%Z then substring_to n d ++ "." ++ substring_from n d
  else if (-6 <? n)%Z && (n <=? 0)%Z then "0." ++ zeros (- n) ++ d
  else
    let exponent := (n - 1)%Z in
    let sign := if (exponent <? 0)%Z then "-" else "+" in
    let mantissa :=
      if (k =? 1)%Z then d else substring_to 1 d ++ "." ++ substring_from 1 d in
    mantissa ++ "e" ++ sign ++ digits (Z.abs exponent).

Definition Number_toString (x : float) : string :=
  match Prim2SF x with
  | S754_nan => "NaN"
  | S754_zero _ => "0"
  | S754_infinity false => "Infinity"
  | S754_infinity true => "-Infinity"
  | S754_finite false m e => positive_toString m e
  | S754_finite true m e => "-" ++ positive_toString m e
  end.

(** *** Number.prototype.toFixed(0)

    The integer nearest to the value, the larger one of two equally near;
    the sign is put back in front.  From [10^21] on, [toString] is used. *)

Definition round_half_up (q : Q) : Z := Qfloor (q + (1 # 2))%Q.

Definition toFixed0_exact (q : Q) : string :=
  if Qltb q 0 then "-" ++ digits (round_half_up (- q)%Q)
  else digits (round_half_up q).

Definition toFixed0 (x : float) : string :=
  match Prim2SF x with
  | S754_finite s m e =>
      if Qltb (exact m e) (pow10 21) then
        (if s then "-" else "") ++ digits (round_half_up (exact m e))
      else Number_toString x
  | S754_zero _ => "0"
  | _ => Number_toString x
  end.

(** ** Elements

    What a component returns: a tree of elements whose children may be any
    JavaScript value.  [JArray] is the result of a [map]. *)

Inductive jsx :=
| JFalse
| JNull
| JUndefined
| JStr (s : string)
| JNum (n : Z)
| JFunction (name : string)
| JObject (name : string)
| JElem (tag className : string) (attrs : list (string * string)) (children : list jsx)
| JFragment (children : list jsx)
| JArray (items : list jsx).

(** What React puts in the document. *)
Inductive dom :=
| DText (s : string)
| DElem (tag className : string) (attrs : list (string * string)) (children : list dom).

(** Rendering of a child: booleans, [null], [undefined] and the empty string
    leave nothing; a function is dropped (with a warning); a plain object is
    refused, and the render throws ([None]). *)
Fixpoint render_dom (j : jsx) : option (list dom) :=
  let fix render_all (l : list jsx) : option (list dom) :=
    match l with
    | [] => Some []
    | k :: rest =>
        match render_dom k, render_all rest with
        | Some a, Some b => Some (a ++ b)%list
        | _, _ => None
        end
    end in
  match j with
  | JFalse | JNull | JUndefined => Some []
  | JStr s => if truthy_string s then Some [DText s] else Some []
  | JNum n => Some [DText (pretty n)]
  | JFunction _ => Some []
  | JObject _ => None
  | JElem tag cls attrs kids =>
      match render_all kids with
      | Some ks => Some [DElem tag cls attrs ks]
      | None => None
      end
  | JFragment kids => render_all kids
  | JArray items => render_all items
  end.

(** The class names of a [className], which separates them by spaces. *)
Fixpoint class_list_from (current : string) (s : string) : list string :=
  match s with
  | EmptyString => [current]
  | String c rest =>
      if Ascii.eqb c " "%char then current :: class_list_from "" rest
      else class_list_from (current ++ String c "") rest
  end.

Definition class_list (className : string) : list string :=
  List.filter (fun c => truthy_string c) (class_list_from "" className).

(** Does the tree hold an element of class [c]? *)
Fixpoint has_class (c : string) (j : jsx) : bool :=
  match j with
  | JElem _ cls _ kids =>
      existsb (String.eqb c) (class_list cls) || existsb (has_class c) kids
  | JFragment kids => existsb (has_class c) kids
  | JArray items => existsb (has_class c) items
  | _ => false
  end.

(** The attribute [a] of the first element of class [c], in document order. *)
Fixpoint attr_of (c a : string) (j : jsx) : option string :=
  let fix first (l : list jsx) : option string :=
    match l with
    | [] => None
    | k :: rest =>
        match attr_of c a k with
        | Some v => Some v
        | None => first rest
        end
    end in
  match j with
  | JElem _ cls attrs kids =>
      if existsb (String.eqb c) (class_list cls) then
        match find (fun kv => String.eqb (fst kv) a) attrs with
        | Some kv => Some (snd kv)
        | None => None
        end
      else first kids
  | JFragment kids => first kids
  | JArray items => first items
  | _ => None
  end.

(** *** Conditions in front of an element: [x && (...)] *)

(** [s && k], for a string or [null] / [undefined]. *)
Definition and_string (m : maybe string) (k : string -> jsx) : jsx :=
  match m with
  | Undefined => JUndefined
  | Null => JNull
  | Have s => if truthy_string s then k s else JStr s
  end.

(** [l && l.length > 0 && k], for an array or [null] / [undefined]. *)
Definition and_nonempty {A} (m : maybe (list A)) (k : list A -> jsx) : jsx :=
  match m with
  | Undefined => JUndefined
  | Null => JNull
  | Have l => if (0 <? length l)%nat then k l else JFalse
  end.

(** [n && k], for a number or [null] / [undefined]. *)
Definition and_number (m : maybe Z) (k : Z -> jsx) : jsx :=
  match m with
  | Undefined => JUndefined
  | Null => JNull
  | Have n => if (n =? 0)%Z then JNum n else k n
  end.

(** [o && k], for an object or [null] / [undefined]. *)
Definition and_object {A} (m : maybe A) (k : A -> jsx) : jsx :=
  match m with
  | Undefined => JUndefined
  | Null => JNull
  | Have o => k o
  end.

(** [b && k], for a boolean. *)
Definition and_bool (b : bool) (k : jsx) : jsx := if b then k else JFalse.

(** [s && k], for a state cell holding a string or [null]. *)
Definition and_message (m : option string) (k : string -> jsx) : jsx :=
  match m with
  | None => JNull
  | Some s => if truthy_string s then k s else JStr s
  end.

(** The value of an attribute given by an optional string. *)
Definition attr_value (m : maybe string) : string :=
  match m with Have s => s | _ => "" end.

(** ** MoodDisplay *)

(** What a property read or a call may return here. *)
Inductive jsval :=
| VString (s : string)
| VFunction (name : string)
| VObject (name : string).

Definition child (v : jsval) : jsx :=
  match v with
  | VString s => JStr s
  | VFunction name => JFunction name
  | VObject name => JObject name
  end.

(** The own properties of the object literal [moodEmojis]. *)
Definition moodEmojis : gmap string string :=
  list_to_map [
    ("calm", "😌");
    ("energetic", "⚡");
    ("romantic", "💕");
    ("dark", "🌑");
    ("melancholic", "😔");
    ("joyful", "😄");
    ("mysterious", "🔮");
    ("aggressive", "😤");
    ("dreamy", "✨");
    ("uplifting", "🌟")
  ].

(** An object literal inherits from [Object.prototype]: a property that is
    not its own is looked up there.  [constructor] is the function [Object],
    [__proto__] reads the prototype itself, the others are methods. *)
Definition Object_prototype_methods : list string :=
  [ "hasOwnProperty"; "isPrototypeOf"; "propertyIsEnumerable";
    "toLocaleString"; "toString"; "valueOf";
    "__defineGetter__"; "__defineSetter__"; "__lookupGetter__"; "__lookupSetter__" ].

Definition Object_prototype (key : string) : option jsval :=
  if key =? "constructor" then Some (VFunction "Object")
  else if key =? "__proto__" then Some (VObject "Object.prototype")
  else if existsb (String.eqb key) Object_prototype_methods then Some (VFunction key)
  else None.

(** [obj[key]] for an object literal with own properties [own]; [None] is
    [undefined]. *)
Definition get (own : gmap string string) (key : string) : option jsval :=
  match own !! key with
  | Some s => Some (VString s)
  | None => Object_prototype key
  end.

Definition truthy (v : jsval) : bool :=
  match v with
  | VString s => truthy_string s
  | VFunction _ | VObject _ => true
  end.

Definition fallback_emoji : string := "🎨".

(** [moodEmojis[mood.toLowerCase()] || '🎨'] *)
Definition getMoodEmoji (mood : string) : jsval :=
  match get moodEmojis (toLowerCase mood) with
  | Some v => if truthy v then v else VString fallback_emoji
  | None => VString fallback_emoji
  end.

Definition MoodDisplay (moodAnalysis : MoodAnalysis.t) : jsx :=
  let percent := (MoodAnalysis.confidence moodAnalysis * 100)%float in
  JElem "div" "mood-display" [] [
    JElem "h2" "section-title" [] [JStr "Detected Mood"];
    JElem "div" "primary-mood" [] [
      JElem "div" "mood-emoji" []
        [child (getMoodEmoji (MoodAnalysis.primary_mood moodAnalysis))];
      JElem "div" "mood-info" [] [
        JElem "h3" "mood-name" [] [JStr (MoodAnalysis.primary_mood moodAnalysis)];
        JElem "div" "confidence-bar" [] [
          JElem "div" "confidence-fill"
            [("style.width", Number_toString percent ++ "%")] []
        ];
        JElem "p" "confidence-text" [] [JStr (toFixed0 percent); JStr "% confidence"]
      ]
    ];
    and_nonempty (MoodAnalysis.secondary_moods moodAnalysis) (fun secondary_moods =>
      JElem "div" "secondary-moods" [] [
        JElem "h4" "" [] [JStr "Secondary Moods"];
        JElem "div" "mood-tags" [] [
          JArray (map (fun mood =>
            JElem "span" "mood-tag" [] [child (getMoodEmoji mood); JStr " "; JStr mood])
            secondary_moods)
        ]
      ]);
    and_string (MoodAnalysis.reasoning moodAnalysis) (fun reasoning =>
      JElem "div" "reasoning" [] [
        JElem "h4" "" [] [JStr "Analysis"];
        JElem "p" "" [] [JStr reasoning]
      ]);
    and_object (MoodAnalysis.visual_elements moodAnalysis) (fun visual_elements =>
      JElem "div" "visual-elements" [] [
        JElem "h4" "" [] [JStr "Visual Elements"];
        JElem "div" "elements-grid" [] [
          JArray (map (fun entry =>
            JElem "div" "element-item" [] [
              JElem "span" "element-key" [] [JStr (fst entry); JStr ":"];
              JElem "span" "element-value" [] [JStr (snd entry)]
            ]) visual_elements)
        ]
      ])
  ].

(** ** MusicRecommendations *)

(** [duration_ms] is a whole number of milliseconds.  On whole numbers below
    [2^53] the binary64 operations of the source are exact up to the final
    rounding, so they are taken on the rationals: [Math.floor(ms / 60000)],
    the remainder [ms % 60000] (which has the sign of [ms]), its quotient by
    1000, and [toFixed(0)]. *)
Definition formatDuration (ms : Z) : string :=
  let minutes := (ms / 60000)%Z in
  let seconds := toFixed0_exact (inject_Z (Z.rem ms 60000) / inject_Z 1000)%Q in
  pretty minutes ++ ":" ++ padStart 2 "0"%char seconds.

Definition track_card (index : nat) (track : Track.t) : jsx :=
  JElem "div" "track-card" [] [
    JElem "div" "track-number" [] [JNum (Z.of_nat index + 1)];
    and_string (Track.image track) (fun image =>
      JElem "img" "track-image" [("src", image); ("alt", Track.album track)] []);
    JElem "div" "track-info" [] [
      JElem "h4" "track-name" [] [JStr (Track.name track)];
      JElem "p" "track-artist" [] [JStr (Track.artist track)];
      JElem "p" "track-album" [] [JStr (Track.album track)]
    ];
    JElem "div" "track-actions" [] [
      JElem "span" "track-duration" [] [JStr (formatDuration (Track.duration_ms track))];
      and_string (Track.preview_url track) (fun preview_url =>
        JElem "audio" "track-preview" [("controls", "")] [
          JElem "source" "" [("src", preview_url); ("type", "audio/mpeg")] []
        ]);
      and_string (Track.url track) (fun url =>
        JElem "a" "spotify-link"
          [("href", url); ("target", "_blank"); ("rel", "noopener noreferrer")]
          [JStr "🎵 Open in Spotify"])
    ]
  ].

Definition playlist_card (playlist : Playlist.t) : jsx :=
  JElem "div" "playlist-card" [] [
    and_string (Playlist.image playlist) (fun image =>
      JElem "img" "playlist-image" [("src", image); ("alt", Playlist.name playlist)] []);
    JElem "div" "playlist-info" [] [
      JElem "h4" "playlist-name" [] [JStr (Playlist.name playlist)];
      and_string (Playlist.description playlist) (fun description =>
        JElem "p" "playlist-description" [] [JStr description]);
      and_number (Playlist.tracks playlist) (fun tracks =>
        JElem "p" "playlist-tracks" [] [JNum tracks; JStr " tracks"]);
      and_string (Playlist.url playlist) (fun url =>
        JElem "a" "playlist-link"
          [("href", url); ("target", "_blank"); ("rel", "noopener noreferrer")]
          [JStr "Open Playlist"])
    ]
  ].

Definition MusicRecommendations
    (recommendations : Recommendations.t) (playlists : maybe (list Playlist.t)) : jsx :=
  JElem "div" "music-recommendations" [] [
    JElem "h2" "section-title" [] [JStr "Music Recommendations"];
    JElem "div" "mood-info-bar" [] [
      JElem "div" "mood-badge" [] [JStr (Recommendations.mood recommendations)];
      JElem "p" "mood-description" [] [JStr (Recommendations.mood_description recommendations)]
    ];
    and_nonempty (Recommendations.genres recommendations) (fun genres =>
      JElem "div" "genres" [] [
        JElem "span" "genre-label" [] [JStr "Genres:"];
        JArray (map (fun genre => JElem "span" "genre-tag" [] [JStr genre]) genres)
      ]);
    JElem "div" "tracks-container" [] [
      JElem "h3" "subsection-title" []
        [JNum (Recommendations.track_count recommendations); JStr " Tracks Found"];
      JElem "div" "tracks-list" []
        [JArray (imap track_card (Recommendations.tracks recommendations))]
    ];
    and_nonempty playlists (fun playlists =>
      JElem "div" "playlists-container" [] [
        JElem "h3" "subsection-title" [] [JStr "Curated Playlists"];
        JElem "div" "playlists-grid" [] [JArray (map playlist_card playlists)]
      ])
  ].

(** ** ImageUpload: the render *)

Definition upload_area_className (dragActive analyzing : bool) : string :=
  "upload-area " ++ (if dragActive then "drag-active" else "") ++ " " ++
  (if analyzing then "analyzing" else "").

(** [preview ? ... : ...] *)
Definition has_preview (u : UploadState) : bool :=
  match preview u with
  | Some p => truthy_string p
  | None => false
  end.

Definition ImageUpload (u : UploadState) (analyzing : bool) : jsx :=
  JElem "div" "image-upload-container" [] [
    JElem "div" (upload_area_className (dragActive u) analyzing)
      [ ("onDragEnter", "handleDrag"); ("onDragLeave", "handleDrag");
        ("onDragOver", "handleDrag"); ("onDrop", "handleDrop");
        ("onClick", "onButtonClick") ]
      [ JElem "input" ""
          [ ("type", "file"); ("accept", "image/*"); ("onChange", "handleChange");
            ("style.display", "none") ] [];
        if has_preview u then
          JElem "div" "preview-container" [] [
            JElem "img" "preview-image"
              [("src", default "" (preview u)); ("alt", "Preview")] [];
            and_bool (negb analyzing)
              (JElem "p" "upload-text" [] [JStr "Click or drop to change image"])
          ]
        else
          JElem "div" "upload-prompt" [] [
            JElem "div" "upload-icon" [] [JStr "📸"];
            JElem "p" "upload-text" [] [JStr "Drag & drop an image here"];
            JElem "p" "upload-subtext" [] [JStr "or click to browse"];
            JElem "p" "upload-formats" [] [JStr "PNG, JPG, GIF, WebP"]
          ]
      ]
  ].

(** ** App: the render *)

(** [(result || error) && k] *)
Definition and_result_or_error (s : AppState) (k : jsx) : jsx :=
  match result s with
  | Some _ => k
  | None => and_message (error s) (fun _ => k)
  end.

Definition App (w : World) : jsx :=
  let s := app w in
  JElem "div" "App" [] [
    JElem "header" "App-header" [] [
      JElem "h1" "" [] [JStr "🎨 MoodBoard Agent 🎵"];
      JElem "p" "" [] [JStr "Upload an image to detect its mood and discover matching music"]
    ];
    JElem "main" "App-main" [] [
      ImageUpload (upload w) (analyzing s);
      and_result_or_error s
        (JElem "div" "reset-button-container" [] [
           JElem "button" "reset-button" [("onClick", "handleReset")]
             [JStr "🔄 Analyze Another Image"]
         ]);
      and_message (error s) (fun error =>
        JElem "div" "error-message" [] [
          JElem "p" "" [] [JStr "❌ Error: "; JStr error]
        ]);
      and_bool (analyzing s)
        (JElem "div" "loading" [] [
           JElem "div" "spinner" [] [];
           JElem "p" "" [] [JStr "Analyzing your image..."]
         ]);
      match result s with
      | None => JNull
      | Some data =>
          JFragment [
            MoodDisplay (AnalysisResult.mood_analysis data);
            MusicRecommendations (AnalysisResult.music_recommendations data)
                                 (AnalysisResult.playlists data)
          ]
      end
    ];
    JElem "footer" "App-footer" [] [
      JElem "p" "" [] [JStr "Powered by Anthropic Claude & Spotify"]
    ]
  ].

(** * Vocabulary of the properties *)

(** ** Lifecycle *)

(** The worlds the page can be in: the initial one and those one event away
    from a reachable one. *)
Inductive reachable : World -> Prop :=
| reachable_initial : reachable World_initial
| reachable_step ev w : reachable w -> reachable (step ev w).

(** The three lifecycle flags. *)
Definition lifecycle (s : AppState) : bool * option AnalysisResult.t * option string :=
  (analyzing s, result s, error s).

Definition is_Idle (s : AppState) : Prop := lifecycle s = lifecycle App_initial.
Definition is_Analyzing (s : AppState) : Prop := lifecycle s = (true, None, None).
Definition is_Succeeded (s : AppState) : Prop := result s <> None.
Definition is_Failed (s : AppState) : Prop := error s <> None.

(** A new value enters the result cell or the error cell. *)
Definition stores (w w' : World) : Prop :=
  (result (app w') <> None /\ result (app w') <> result (app w)) \/
  (error (app w') <> None /\ error (app w') <> error (app w)).

(** ** Events *)

Definition is_image (file : File.t) : bool := startsWith (File.type file) "image/".

(** The request [handleImageUpload] sends for a file. *)
Definition the_request (file : File.t) : Request.t :=
  Request.mk analyze_url "POST" [("file", file)].

(** The file an event hands to the submit operation, if it does. *)
Definition submits (ev : Event) : option File.t :=
  match ev with
  | Drop (file :: _) | Change (file :: _) => if is_image file then Some file else None
  | _ => None
  end.

Definition in_flightb (id : nat) (w : World) : bool :=
  existsb (Nat.eqb id) (in_flight (browser w)).

(** What the rest of [handleImageUpload] leaves in the result cell and in the
    error cell once the promise has settled. *)
Definition settled_result (o : FetchOutcome) (s : AppState) : option AnalysisResult.t :=
  match o with
  | Resolved response =>
      if Response.ok response then
        match Response.json response with
        | Decoded data => Some data
        | Malformed _ => result s
        end
      else result s
  | Rejected _ => result s
  end.

Definition settled_error (o : FetchOutcome) (s : AppState) : option string :=
  match o with
  | Resolved response =>
      if Response.ok response then
        match Response.json response with
        | Decoded _ => error s
        | Malformed message => Some message
        end
      else Some "Failed to analyze image"
  | Rejected message => Some message
  end.

(** Events on the upload surface. *)
Definition on_upload_surface (ev : Event) : bool :=
  match ev with
  | Drag _ | Drop _ | Change _ | Click => true
  | _ => false
  end.

(** A sequence of events in which the upload surface receives nothing while
    the in-flight flag is set. *)
Fixpoint inert_while_analyzing (evs : list Event) (w : World) : bool :=
  match evs with
  | [] => true
  | ev :: rest =>
      (negb (analyzing (app w)) || negb (on_upload_surface ev)) &&
      inert_while_analyzing rest (step ev w)
  end.

(** At most one request is in flight, and while one is, the flag is set and
    both cells are empty; otherwise the flag is down and one cell is empty. *)
Definition one_at_a_time (w : World) : Prop :=
  match in_flight (browser w) with
  | [] => analyzing (app w) = false /\ (result (app w) = None \/ error (app w) = None)
  | [_] => is_Analyzing (app w)
  | _ => False
  end.

(** ** Sample inputs *)

Definition png : File.t := File.mk "sunset.png" "image/png" "PNG".
Definition jpeg : File.t := File.mk "beach.jpg" "image/jpeg" "JFIF".
Definition pdf : File.t := File.mk "notes.pdf" "application/pdf" "PDF".

Definition calm_result : AnalysisResult.t :=
  AnalysisResult.mk
    (MoodAnalysis.mk "Calm" 0.85 (Have ["dreamy"]) (Have "Soft light over still water.")
       Undefined)
    (Recommendations.mk "calm" "Peaceful and relaxing" (Have ["ambient"; "chill"]) 2
       [ Track.mk "Weightless" "Marconi Union" "Weightless" 480000
           Undefined Null (Have "https://open.spotify.com/track/1");
         Track.mk "Spiegel im Spiegel" "Arvo Part" "Alina" 65000
           Undefined Undefined Undefined ])
    Undefined.

Definition ok_response : Response.t := Response.mk 200 (Decoded calm_result).
Definition error_response : Response.t := Response.mk 500 (Malformed "Unexpected token").

(** The world while the first upload is being analyzed. *)
Definition analyzing_world : World := step (Change [png]) World_initial.

(** The world after an upload whose preview was read and that the backend
    answered with status 500. *)
Definition failed_world : World :=
  run [ Change [png];
        ReaderLoadEnd 0 "data:image/png;base64,UE5H";
        FetchSettled 0 (Resolved error_response) ] World_initial.

(** Two uploads, the second one started while the first is being analyzed;
    the first succeeds, then the second fails. *)
Definition overlapping_uploads : list Event :=
  [ Change [png]; Drop [jpeg];
    FetchSettled 0 (Resolved ok_response);
    FetchSettled 1 (Resolved error_response) ].

Definition analysis_of (mood : string) (secondary : list string) : MoodAnalysis.t :=
  MoodAnalysis.mk mood 0.85 (Have secondary) Undefined Undefined.

(** ** Rendered output *)

(** The duration as the specification words it: whole minutes, a colon, and
    the whole seconds of the remainder on two digits. *)
Definition duration_as_specified (ms : Z) : string :=
  digits (ms / 60000) ++ ":" ++ padStart 2 "0"%char (digits ((ms mod 60000) / 1000)).

(** The width given to the fill of the confidence bar. *)
Definition confidence_fill_width (moodAnalysis : MoodAnalysis.t) : option string :=
  attr_of "confidence-fill" "style.width" (MoodDisplay moodAnalysis).

(** What the page shows in the emoji box of a mood. *)
Definition rendered_emoji (mood : string) : option (list dom) :=
  render_dom (JElem "div" "mood-emoji" [] [child (getMoodEmoji mood)]).

(** An optional list with nothing to show: absent, [null] or empty. *)
Definition nothing_to_list {A} (m : maybe (list A)) : bool :=
  match m with
  | Have (_ :: _) => false
  | _ => true
  end.

(** The classes of the sections that show an optional list. *)
Definition section_class (c : string) : bool :=
  (c =? "genres") || (c =? "playlists-container") || (c =? "secondary-moods").

(** ** Runs *)

(** The files a sequence of events hands to the submit operation, in order. *)
Definition accepted (evs : list Event) : list File.t := omap submits evs.

(** A drop or a selection whose first file is not an image. *)
Definition rejects (ev : Event) : bool :=
  match ev with
  | Drop (file :: _) | Change (file :: _) => negb (is_image file)
  | _ => false
  end.

(** ** The page *)

(** [error] as a condition: a non-empty message. *)
Definition error_shown (s : AppState) : bool :=
  match error s with
  | Some message => truthy_string message
  | None => false
  end.

Definition has_result (s : AppState) : bool :=
  match result s with
  | Some _ => true
  | None => false
  end.

(** The ends of file reads. *)
Definition is_reader_end (ev : Event) : bool :=
  match ev with
  | ReaderLoadEnd _ _ => true
  | _ => false
  end.

(** Every pending read was started by an instance of [ImageUpload] older than
    the mounted one. *)
Definition readers_are_stale (w : World) : Prop :=
  Forall (fun r => fst r < upload_key w) (readers (browser w)).

(** ** Renders that throw *)

(** Is a plain object among the children, at any depth? *)
Fixpoint holds_object (j : jsx) : bool :=
  match j with
  | JObject _ => true
  | JElem _ _ _ kids => existsb holds_object kids
  | JFragment kids => existsb holds_object kids
  | JArray items => existsb holds_object items
  | _ => false
  end.

(** The labels the mood panel looks up an emoji for: the primary mood and
    the secondary moods. *)
Definition labels (moodAnalysis : MoodAnalysis.t) : list string :=
  MoodAnalysis.primary_mood moodAnalysis ::
  match MoodAnalysis.secondary_moods moodAnalysis with
  | Have secondary => secondary
  | _ => []
  end.

Definition names_prototype (mood : string) : bool :=
  toLowerCase mood =? "__proto__".

(** ** Optional parts *)

(** [s && ...] lets the element through: the string is there and not empty. *)
Definition shown (m : maybe string) : bool :=
  match m with
  | Have s => truthy_string s
  | _ => false
  end.

Definition present {A} (m : maybe A) : bool :=
  match m with
  | Have _ => true
  | _ => false
  end.

(** [n && ...] lets the element through: the number is there and not zero. *)
Definition counted (m : maybe Z) : bool :=
  match m with
  | Have n => negb (n =? 0)%Z
  | _ => false
  end.

(** ** Events that only touch the drag flag *)

Definition cosmetic (ev : Event) : bool :=
  match ev with
  | Drag _ | Click => true
  | _ => false
  end.

(** The world with the drag flag put down. *)
Definition without_drag (w : World) : World :=
  mkWorld (app w) (upload_key w) (mkUpload false (preview (upload w))) (browser w).

(** The number cell that opens a track row. *)
Definition track_number (index : nat) : dom :=
  DElem "div" "track-number" [] [DText (pretty (Z.of_nat index + 1)%Z)].

(** ** Runs without overlap *)

Definition submits_nothing (ev : Event) : bool :=
  match submits ev with
  | Some _ => false
  | None => true
  end.

(** A sequence of events in which no submit begins while the in-flight flag
    is set: no drop or selection of an image arrives then.  Drags, clicks and
    files that are not images may. *)
Fixpoint no_submit_while_analyzing (evs : list Event) (w : World) : bool :=
  match evs with
  | [] => true
  | ev :: rest =>
      (negb (analyzing (app w)) || submits_nothing ev) &&
      no_submit_while_analyzing rest (step ev w)
  end.

(** ** What reaches the document *)

Fixpoint dom_has_class (c : string) (d : dom) : bool :=
  match d with
  | DText _ => false
  | DElem _ cls _ kids =>
      existsb (String.eqb c) (class_list cls) || existsb (dom_has_class c) kids
  end.

(** An element of class [c] is in the document React makes of the tree; when
    the render throws, nothing is. *)
Definition on_page (c : string) (j : jsx) : bool :=
  match render_dom j with
  | Some doc => existsb (dom_has_class c) doc
  | None => false
  end.

(** The page renders: no result is stored, or none of the mood labels of the
    stored result lower-cases to [__proto__]. *)
Definition page_renders (s : AppState) : bool :=
  match result s with
  | Some data =>
      negb (existsb names_prototype (labels (AnalysisResult.mood_analysis data)))
  | None => true
  end.

(** ** Labels *)

(** All characters are ASCII. *)
Fixpoint ascii_only (s : string) : bool :=
  match s with
  | EmptyString => true
  | String c rest => (nat_of_ascii c <? 128)%nat && ascii_only rest
  end.

(** ** Overlapping uploads *)


(** * Properties *)

(** ** Reachable worlds *)

Lemma run_snoc evs ev w : run (evs ++ [ev])%list w = step ev (run evs w).
Proof. unfold run. now rewrite fold_left_app. Qed.

Lemma run_app evs1 evs2 w : run (evs1 ++ evs2)%list w = run evs2 (run evs1 w).
Proof. unfold run. now rewrite fold_left_app. Qed.

Lemma reachable_run evs w : reachable w -> reachable (run evs w).
Proof.
  revert w. induction evs as [|ev evs IH]; intros w Hw; simpl.
  - exact Hw.
  - apply IH. now constructor.
Qed.

(** [reconcile] touches neither the cells of [App] nor the browser. *)
Lemma app_reconcile w : app (reconcile w) = app w.
Proof. unfold reconcile. now destruct (Nat.eqb _ _). Qed.

Lemma browser_reconcile w : browser (reconcile w) = browser w.
Proof. unfold reconcile. now destruct (Nat.eqb _ _). Qed.

Lemma upload_key_reconcile w : upload_key (reconcile w) = resetKey (app w).
Proof.
  unfold reconcile. destruct (Nat.eqb _ _) eqn:E; [|reflexivity].
  now apply Nat.eqb_eq in E.
Qed.

(** The mounted [ImageUpload] is always the one [App] rendered last. *)
Lemma reachable_mounted w : reachable w -> upload_key w = resetKey (app w).
Proof.
  intros H. destruct H as [|ev w H]; [reflexivity|].
  unfold step, andThen. rewrite upload_key_reconcile, app_reconcile. reflexivity.
Qed.

(** ** Upload Capture: validation *)

Lemma handleFile_image submit file w :
  is_image file = true ->
  handleFile submit file w = submit file (readAsDataURL file w).
Proof. unfold handleFile, is_image. intros ->. reflexivity. Qed.

Lemma handleFile_not_image submit file w :
  is_image file = false ->
  handleFile submit file w = alert "Please upload an image file" w.
Proof. unfold handleFile, is_image. intros ->. reflexivity. Qed.

(** C4. A file whose declared type does not begin with [image/] is answered
    by an alert and nothing else: whatever the submit operation is, it is not
    called, and the cells of [App], the preview, the requests sent, those in
    flight and the readers stay as they were.  A change event runs exactly
    this; a drop also lowers the drag flag. *)
Theorem non_image_is_rejected (submit : File.t -> Action) (file : File.t)
    (rest : list File.t) (w : World) :
  is_image file = false ->
  handleFile submit file w = alert "Please upload an image file" w /\
  app (handleFile submit file w) = app w /\
  upload (handleFile submit file w) = upload w /\
  outbound (browser (handleFile submit file w)) = outbound (browser w) /\
  in_flight (browser (handleFile submit file w)) = in_flight (browser w) /\
  readers (browser (handleFile submit file w)) = readers (browser w) /\
  alerts (browser (handleFile submit file w)) =
    (alerts (browser w) ++ ["Please upload an image file"])%list /\
  handleChange submit (file :: rest) w = handleFile submit file w /\
  app (handleDrop submit (file :: rest) w) = app w /\
  preview (upload (handleDrop submit (file :: rest) w)) = preview (upload w) /\
  outbound (browser (handleDrop submit (file :: rest) w)) = outbound (browser w).
Proof.
  intros Hty.
  unfold handleChange, handleDrop, andThen.
  rewrite !handleFile_not_image by exact Hty.
  repeat split.
Qed.

Lemma non_image_is_rejected_witness :
  is_image pdf = false /\
  app (handleFile handleImageUpload pdf World_initial) = App_initial.
Proof.
  split; [reflexivity|].
  apply (non_image_is_rejected handleImageUpload pdf [] World_initial).
  reflexivity.
Defined.

(** ** Reset *)

(** C5. From a world reached with a result or an error stored, the reset
    handler followed by the render it causes leaves the three lifecycle flags
    as they were at the start (not analyzing, no result, no error), moves the
    reset key on by one, and mounts a fresh [ImageUpload], whose preview is
    empty.  When the reset button is on the page, a click on it does this. *)
Theorem reset_restores_idle (w : World) :
  reachable w ->
  is_Succeeded (app w) \/ is_Failed (app w) ->
  let w' := (handleReset >> reconcile) w in
  is_Idle (app w') /\
  analyzing (app w') = false /\ result (app w') = None /\ error (app w') = None /\
  resetKey (app w') = S (resetKey (app w)) /\
  upload_key w' = resetKey (app w') /\
  upload w' = ImageUpload_initial /\
  preview (upload w') = None /\
  (result_or_error (app w) = true -> step ResetClick w = w').
Proof.
  intros Hr _ w'.
  pose proof (reachable_mounted w Hr) as Hk.
  assert (Hw' : w' = mkWorld (mkApp false None None (resetKey (app w) + 1))
                             (resetKey (app w) + 1) ImageUpload_initial (browser w)).
  { subst w'. unfold andThen, handleReset, andThen, reconcile; simpl.
    rewrite Hk.
    destruct (Nat.eqb_spec (resetKey (app w)) (resetKey (app w) + 1)) as [E|_]; [lia|].
    reflexivity. }
  rewrite Hw'; simpl.
  repeat split; try lia.
  intros Hb. unfold step, dispatch, andThen at 1. rewrite Hb. exact Hw'.
Qed.

Lemma reset_restores_idle_witness :
  reachable failed_world /\
  (is_Succeeded (app failed_world) \/ is_Failed (app failed_world)) /\
  preview (upload failed_world) = Some "data:image/png;base64,UE5H" /\
  is_Idle (app ((handleReset >> reconcile) failed_world)) /\
  preview (upload ((handleReset >> reconcile) failed_world)) = None.
Proof.
  assert (Hr : reachable failed_world) by (apply reachable_run; constructor).
  assert (Hf : is_Succeeded (app failed_world) \/ is_Failed (app failed_world))
    by (right; discriminate).
  split; [exact Hr|]. split; [exact Hf|]. split; [reflexivity|].
  pose proof (reset_restores_idle failed_world Hr Hf) as H.
  split; apply H.
Defined.

(** ** Submit: the requests sent *)

Lemma handleImageUpload_spec file w :
  handleImageUpload file w =
  mkWorld (mkApp true None None (resetKey (app w))) (upload_key w) (upload w)
          (mkBrowser (outbound (browser w) ++ [the_request file])%list
                     (in_flight (browser w) ++ [length (outbound (browser w))])%list
                     (alerts (browser w)) (readers (browser w))).
Proof. reflexivity. Qed.

Lemma handleImageUpload_resume_spec o w :
  handleImageUpload_resume o w =
  mkWorld (mkApp false (settled_result o (app w)) (settled_error o (app w)) (resetKey (app w)))
          (upload_key w) (upload w) (browser w).
Proof.
  unfold handleImageUpload_resume, andThen, settled_result, settled_error.
  destruct o as [message|response]; [reflexivity|].
  destruct (Response.ok response); [|reflexivity].
  destruct (Response.json response); reflexivity.
Qed.

(** Exactly one of the two is stored by a completion. *)
Lemma settled_one o s :
  result s = None -> error s = None ->
  settled_result o s = None \/ settled_error o s = None.
Proof.
  intros Hr He. unfold settled_result, settled_error.
  destruct o as [m|r]; [now left|].
  destruct (Response.ok r); [|now left].
  destruct (Response.json r); [now right|now left].
Qed.

(** One case per kind of event, each closed by unfolding its handler. *)
Ltac by_event ev :=
  unfold step, andThen; rewrite ?app_reconcile, ?browser_reconcile;
  destruct ev as [type|files|files| |i url|id o| ]; unfold dispatch, submits;
  [ unfold handleDrag; destruct (_ || _); [reflexivity|]; now destruct (_ =? _)
  | unfold handleDrop, andThen; destruct files as [|f fs]; [reflexivity|];
    unfold handleFile, is_image; now destruct (startsWith _ _)
  | unfold handleChange; destruct files as [|f fs]; [reflexivity|];
    unfold handleFile, is_image; now destruct (startsWith _ _)
  | reflexivity
  | destruct (nth_error _ _) as [[owner f]|]; [|reflexivity];
    unfold andThen; now destruct (Nat.eqb owner _)
  | try unfold in_flightb; destruct (existsb _ _); [|reflexivity];
    unfold andThen; now rewrite handleImageUpload_resume_spec
  | now destruct (result_or_error _) ].

Lemma app_step ev w :
  app (step ev w) =
  match ev with
  | Drag _ | Click | ReaderLoadEnd _ _ => app w
  | Drop _ | Change _ =>
      match submits ev with
      | Some _ => mkApp true None None (resetKey (app w))
      | None => app w
      end
  | FetchSettled id o =>
      if in_flightb id w then
        mkApp false (settled_result o (app w)) (settled_error o (app w)) (resetKey (app w))
      else app w
  | ResetClick =>
      if result_or_error (app w) then mkApp false None None (resetKey (app w) + 1) else app w
  end.
Proof. by_event ev. Qed.

Lemma outbound_step ev w :
  outbound (browser (step ev w)) =
  match submits ev with
  | Some file => (outbound (browser w) ++ [the_request file])%list
  | None => outbound (browser w)
  end.
Proof. by_event ev. Qed.

Lemma in_flight_step ev w :
  in_flight (browser (step ev w)) =
  match ev with
  | FetchSettled id _ =>
      if in_flightb id w then remove_id id (in_flight (browser w))
      else in_flight (browser w)
  | _ =>
      match submits ev with
      | Some _ => (in_flight (browser w) ++ [length (outbound (browser w))])%list
      | None => in_flight (browser w)
      end
  end.
Proof. by_event ev. Qed.

Lemma app_step_submit ev file w :
  submits ev = Some file ->
  app (step ev w) = mkApp true None None (resetKey (app w)).
Proof.
  intros Hs. rewrite app_step, Hs.
  destruct ev; try (simpl in Hs; discriminate); reflexivity.
Qed.

Lemma in_flight_step_submit ev file w :
  submits ev = Some file ->
  in_flight (browser (step ev w)) =
    (in_flight (browser w) ++ [length (outbound (browser w))])%list.
Proof.
  intros Hs. rewrite in_flight_step, Hs.
  destruct ev; try (simpl in Hs; discriminate); reflexivity.
Qed.

(** C1, as stated, fails: nothing keeps a file event that arrives during
    Analyzing from the submit operation.  After a first image the flag is
    set; a second image, dropped then, is sent as a second request. *)
Lemma submit_during_analyzing_is_sent :
  ~ (forall (w : World) (file : File.t),
       reachable w -> analyzing (app w) = true -> is_image file = true ->
       outbound (browser (step (Drop [file]) w)) = outbound (browser w)).
Proof.
  intros H.
  specialize (H analyzing_world jpeg).
  assert (Hr : reachable analyzing_world) by (apply reachable_step; constructor).
  specialize (H Hr eq_refl eq_refl).
  vm_compute in H. discriminate H.
Qed.

(** C1, amended. For an image file, in every world (Idle, Analyzing or any
    other), the submit operation sends exactly one request, the POST of the
    file as the field [file] to the analysis address, and so does a change or
    a drop event that carries the file: the handlers of [ImageUpload] do not
    read the in-flight flag.  The rest of the submit, run when the response
    arrives, sends nothing, nor does any other event.  What the flag changes
    in [ImageUpload] is the class of the upload area, which keeps its
    handlers and gets no [disabled] attribute. *)
Theorem submit_sends_one_request_in_every_state (w : World) (file : File.t)
    (rest : list File.t) :
  is_image file = true ->
  outbound (browser (handleImageUpload file w)) =
    (outbound (browser w) ++ [the_request file])%list /\
  outbound (browser (step (Change (file :: rest)) w)) =
    (outbound (browser w) ++ [the_request file])%list /\
  outbound (browser (step (Drop (file :: rest)) w)) =
    (outbound (browser w) ++ [the_request file])%list /\
  (forall o, outbound (browser (handleImageUpload_resume o w)) = outbound (browser w)) /\
  (forall ev, submits ev = None ->
     outbound (browser (step ev w)) = outbound (browser w)) /\
  (forall u a,
     attr_of "upload-area" "onDrop" (ImageUpload u a) = Some "handleDrop" /\
     attr_of "upload-area" "onClick" (ImageUpload u a) = Some "onButtonClick" /\
     attr_of "upload-area" "disabled" (ImageUpload u a) = None /\
     has_class "analyzing" (ImageUpload u a) = a).
Proof.
  intros Himg.
  split; [reflexivity|].
  split; [rewrite outbound_step; unfold submits; now rewrite Himg|].
  split; [rewrite outbound_step; unfold submits; now rewrite Himg|].
  split; [intros o; now rewrite handleImageUpload_resume_spec|].
  split; [intros ev Hev; rewrite outbound_step; now rewrite Hev|].
  intros [d p] a.
  assert (Hp : has_preview (mkUpload d p) = true \/ has_preview (mkUpload d p) = false)
    by (destruct (has_preview _); auto).
  unfold ImageUpload.
  destruct Hp as [-> | ->]; destruct d, a; repeat split; reflexivity.
Qed.

Lemma submit_sends_one_request_in_every_state_witness :
  is_image jpeg = true /\
  analyzing (app analyzing_world) = true /\
  outbound (browser (step (Drop [jpeg]) analyzing_world)) =
    [the_request png; the_request jpeg].
Proof.
  split; [reflexivity|]. split; [reflexivity|].
  apply (submit_sends_one_request_in_every_state analyzing_world jpeg []).
  reflexivity.
Defined.

(** ** The lifecycle invariant *)

(** C2, as stated, fails: the completion of a submit stores its result or its
    error without clearing the other one, so two submits in flight together
    can leave both. *)
Lemma result_and_error_both_set :
  ~ (forall w : World,
       reachable w -> ~ (is_Succeeded (app w) /\ is_Failed (app w))).
Proof.
  intros H.
  apply (H (run overlapping_uploads World_initial)).
  - apply reachable_run. constructor.
  - split; discriminate.
Qed.

Lemma no_submit_while_analyzing_snoc evs ev w :
  no_submit_while_analyzing (evs ++ [ev])%list w = true ->
  no_submit_while_analyzing evs w = true /\
  (analyzing (app (run evs w)) = true -> submits ev = None).
Proof.
  revert w. induction evs as [|e evs IH]; intros w; simpl.
  - rewrite andb_true_r. intros H. split; [reflexivity|].
    intros Ha. rewrite Ha in H. simpl in H. unfold submits_nothing in H.
    now destruct (submits ev).
  - intros H. apply andb_prop in H as [H1 H2].
    apply IH in H2 as [H2 H3]. rewrite H1, H2. now split.
Qed.

Lemma submits_on_upload_surface ev file :
  submits ev = Some file -> on_upload_surface ev = true.
Proof. destruct ev; simpl; congruence. Qed.

Lemma one_at_a_time_step ev w :
  one_at_a_time w ->
  (analyzing (app w) = true -> submits ev = None) ->
  one_at_a_time (step ev w).
Proof.
  unfold one_at_a_time, is_Analyzing, lifecycle.
  intros Hinv Hgate.
  rewrite in_flight_step, app_step.
  destruct (submits ev) as [file|] eqn:Hs.
  - (* a submit: the flag was down, so nothing was in flight *)
    destruct (in_flight (browser w)) as [|id [|id' l]].
    + destruct ev; simpl in Hs; try discriminate; reflexivity.
    + injection Hinv as Ha _ _. specialize (Hgate Ha). discriminate Hgate.
    + contradiction.
  - destruct ev as [type|files|files| |i url|id o| ]; try exact Hinv.
    + (* the fetch has settled *)
      unfold in_flightb.
      destruct (in_flight (browser w)) as [|id0 [|id1 l]] eqn:Hfl; simpl.
      * exact Hinv.
      * destruct (Nat.eqb_spec id id0) as [->|Hne]; simpl.
        -- unfold remove_id; simpl. rewrite Nat.eqb_refl. simpl.
           injection Hinv as _ Hr He.
           split; [reflexivity|]. now apply settled_one.
        -- exact Hinv.
      * contradiction.
    + (* reset: only with something stored, hence nothing in flight *)
      destruct (result_or_error (app w)) eqn:Hb; [|exact Hinv].
      destruct (in_flight (browser w)) as [|id0 [|id1 l]]; simpl.
      * split; [reflexivity|now left].
      * injection Hinv as _ Hr He.
        unfold result_or_error in Hb. rewrite Hr, He in Hb. discriminate.
      * contradiction.
Qed.

Lemma one_at_a_time_without_overlap evs :
  no_submit_while_analyzing evs World_initial = true ->
  one_at_a_time (run evs World_initial).
Proof.
  induction evs as [|ev evs IH] using rev_ind; intros H.
  - simpl. split; [reflexivity|now left].
  - apply no_submit_while_analyzing_snoc in H as [H1 H2].
    rewrite run_snoc. apply one_at_a_time_step; auto.
Qed.

(** A run in which the upload surface receives nothing while the flag is set
    is one of them. *)
Lemma inert_is_without_overlap evs w :
  inert_while_analyzing evs w = true -> no_submit_while_analyzing evs w = true.
Proof.
  revert w. induction evs as [|ev evs IH]; intros w; simpl; [reflexivity|].
  intros H. apply andb_prop in H as [H1 H2]. rewrite (IH _ H2), andb_true_r.
  destruct (analyzing (app w)); [|reflexivity]. simpl in *.
  unfold submits_nothing. destruct (submits ev) as [file|] eqn:Hs; [|reflexivity].
  rewrite (submits_on_upload_surface _ _ Hs) in H1. discriminate H1.
Qed.

Lemma one_at_a_time_run evs :
  inert_while_analyzing evs World_initial = true ->
  one_at_a_time (run evs World_initial).
Proof. intros H. now apply one_at_a_time_without_overlap, inert_is_without_overlap. Qed.

Lemma stores_only_on_settle ev w :
  stores w (step ev w) ->
  exists id o, ev = FetchSettled id o /\ In id (in_flight (browser w)).
Proof.
  unfold stores. rewrite app_step.
  destruct ev as [type|files|files| |i url|id o| ]; simpl;
    try (intros [[H H']|[H H']]; congruence).
  - destruct (match files with [] => None | f :: _ => _ end);
      simpl; intros [[H H']|[H H']]; congruence.
  - destruct (match files with [] => None | f :: _ => _ end);
      simpl; intros [[H H']|[H H']]; congruence.
  - unfold in_flightb. destruct (existsb _ _) eqn:E.
    + intros _. exists id, o. split; [reflexivity|].
      apply existsb_exists in E as [x [Hx Hxe]].
      apply Nat.eqb_eq in Hxe. now subst.
    + intros [[H H']|[H H']]; congruence.
  - destruct (result_or_error _); simpl; intros [[H H']|[H H']]; congruence.
Qed.

(** Every request in flight was sent by a step that left [App] in Analyzing. *)
Lemma in_flight_sent_in_Analyzing evs id :
  In id (in_flight (browser (run evs World_initial))) ->
  exists before after,
    evs = (before ++ after)%list /\
    is_Analyzing (app (run before World_initial)) /\
    length (outbound (browser (run before World_initial))) = S id.
Proof.
  induction evs as [|ev evs IH] using rev_ind.
  - simpl. contradiction.
  - rewrite run_snoc. set (w := run evs World_initial) in *.
    intros Hin.
    assert (Hold : In id (in_flight (browser w)) ->
                   exists before after,
                     (evs ++ [ev])%list = (before ++ after)%list /\
                     is_Analyzing (app (run before World_initial)) /\
                     length (outbound (browser (run before World_initial))) = S id).
    { intros H. destruct (IH H) as (b & a & -> & Hb).
      exists b, (a ++ [ev])%list. now rewrite app_assoc. }
    destruct (submits ev) as [file|] eqn:Hs.
    + rewrite (in_flight_step_submit _ _ _ Hs) in Hin.
      apply in_app_or in Hin as [H|[H|[]]]; [now apply Hold|].
      exists (evs ++ [ev])%list, []. rewrite app_nil_r, run_snoc. fold w.
      split; [reflexivity|]. split.
      * unfold is_Analyzing, lifecycle. now rewrite (app_step_submit _ _ _ Hs).
      * rewrite outbound_step, Hs, length_app. simpl. lia.
    + rewrite in_flight_step, Hs in Hin. apply Hold.
      destruct ev as [type|files|files| |i url|id' o| ]; try exact Hin.
      destruct (in_flightb id' w); [|exact Hin].
      unfold remove_id in Hin. apply filter_In in Hin. tauto.
Qed.

(** C2, amended. After any sequence of events in which no submit began while
    the in-flight flag was set (whatever else the upload surface received:
    drags, clicks, files that are not images), the result and the error are
    not both stored.  And after any sequence of events at all, an event
    stores a result or an error only if it is the settling of a request still
    in flight, and that request was sent by an earlier step which left [App]
    in Analyzing. *)
Theorem result_and_error_exclusive (evs : list Event) (ev : Event) :
  let w := run evs World_initial in
  (no_submit_while_analyzing (evs ++ [ev])%list World_initial = true ->
   ~ (is_Succeeded (app (step ev w)) /\ is_Failed (app (step ev w)))) /\
  (stores w (step ev w) ->
   exists id o before after,
     ev = FetchSettled id o /\
     In id (in_flight (browser w)) /\
     evs = (before ++ after)%list /\
     is_Analyzing (app (run before World_initial)) /\
     length (outbound (browser (run before World_initial))) = S id).
Proof.
  intros w. split.
  - intros Hinert [Hs Hf].
    pose proof (one_at_a_time_without_overlap _ Hinert) as Hinv.
    rewrite run_snoc in Hinv. fold w in Hinv.
    unfold one_at_a_time, is_Analyzing, lifecycle in Hinv.
    unfold is_Succeeded, is_Failed in Hs, Hf.
    destruct (in_flight (browser (step ev w))) as [|id [|id' l]].
    + destruct Hinv as [_ [H|H]]; contradiction.
    + injection Hinv as _ Hr _. contradiction.
    + contradiction.
  - intros Hst.
    destruct (stores_only_on_settle _ _ Hst) as (id & o & -> & Hin).
    destruct (in_flight_sent_in_Analyzing _ _ Hin) as (b & a & Hevs & Hb).
    exists id, o, b, a. repeat split; try assumption; apply Hb.
Qed.

Lemma result_and_error_exclusive_witness :
  let evs := [Change [png]; Drag "dragover"; Drop [pdf]] in
  let w := run evs World_initial in
  let ev := FetchSettled 0 (Resolved ok_response) in
  no_submit_while_analyzing (evs ++ [ev])%list World_initial = true /\
  inert_while_analyzing (evs ++ [ev])%list World_initial = false /\
  stores w (step ev w) /\
  ~ (is_Succeeded (app (step ev w)) /\ is_Failed (app (step ev w))) /\
  exists id o before after,
    ev = FetchSettled id o /\
    In id (in_flight (browser w)) /\
    evs = (before ++ after)%list /\
    is_Analyzing (app (run before World_initial)) /\
    length (outbound (browser (run before World_initial))) = S id.
Proof.
  intros evs w ev.
  assert (Hst : stores w (step ev w)) by (left; split; discriminate).
  destruct (result_and_error_exclusive evs ev) as [Hexcl Hlate].
  split; [reflexivity|]. split; [reflexivity|]. split; [exact Hst|].
  split; [exact (Hexcl eq_refl)|exact (Hlate Hst)].
Defined.

(** ** The reset button *)

(** The reset button is on the page exactly under the condition that lets a
    click on it through. *)
Lemma reset_button_rendered w :
  has_class "reset-button" (App w) = result_or_error (app w).
Proof.
  unfold App, ImageUpload, and_result_or_error, and_message, result_or_error.
  destruct (has_preview (upload w)), (dragActive (upload w)), (analyzing (app w)),
    (result (app w)), (error (app w)) as [[|c e]|]; reflexivity.
Qed.

(** ** Numbers: known values *)

Example Number_toString_known :
  Number_toString (0.1 + 0.2) = "0.30000000000000004" /\
  Number_toString (0.57 * 100) = "56.99999999999999" /\
  Number_toString (0.07 * 100) = "7.000000000000001" /\
  Number_toString 123456789012345680000 = "123456789012345680000" /\
  Number_toString 1e21 = "1e+21" /\
  Number_toString 0.000001 = "0.000001" /\
  Number_toString 1e-7 = "1e-7" /\
  Number_toString 5e-324 = "5e-324" /\
  Number_toString (-1.5) = "-1.5" /\
  Number_toString (0 / 0) = "NaN".
Proof. repeat split; vm_compute; reflexivity. Qed.

Example toFixed0_known :
  toFixed0 (0.85 * 100) = "85" /\
  toFixed0 0.5 = "1" /\
  toFixed0 2.5 = "3" /\
  toFixed0 (-0.5) = "-1" /\
  toFixed0 (0.575 * 100) = "57" /\
  toFixed0_exact (595 # 10) = "60".
Proof. repeat split; vm_compute; reflexivity. Qed.

(** ** Track durations *)

Lemma Qltb_nonneg (a : Z) (b : positive) : (0 <= a)%Z -> Qltb (a # b) 0 = false.
Proof.
  intros Ha. unfold Qltb. apply negb_false_iff, Qle_bool_iff.
  unfold Qle; simpl. lia.
Qed.

Lemma round_half_up_thousandths (r : Z) :
  round_half_up (inject_Z r / inject_Z 1000) = ((r + 500) / 1000)%Z.
Proof.
  unfold round_half_up, Qfloor, Qdiv, Qmult, Qplus, Qinv, inject_Z; simpl.
  change (Z.pos (1 * 1000 * 2)) with (1000 * 2)%Z.
  change (Z.pos (1 * 1000)) with 1000%Z.
  replace (r * 1 * 2 + 1 * 1000)%Z with ((r + 500) * 2)%Z by lia.
  now rewrite Z.div_mul_cancel_r by lia.
Qed.

Lemma pretty_Z_nonneg (n : Z) : (0 <= n)%Z -> pretty n = digits n.
Proof. unfold digits. destruct n; try reflexivity. lia. Qed.

(** The seconds of [formatDuration] are rounded to the nearest second, not
    cut: they are the whole seconds of the remainder plus half a second. *)
Lemma formatDuration_rounds_seconds (ms : Z) :
  (0 <= ms)%Z ->
  formatDuration ms =
  digits (ms / 60000) ++ ":" ++ padStart 2 "0"%char (digits ((ms mod 60000 + 500) / 1000)).
Proof.
  intros Hms. unfold formatDuration, toFixed0_exact.
  rewrite Z.rem_mod_nonneg by lia.
  assert (Hr : (0 <= ms mod 60000)%Z) by (apply Z.mod_pos_bound; lia).
  rewrite round_half_up_thousandths.
  rewrite pretty_Z_nonneg by (apply Z.div_pos; lia).
  replace (Qltb (inject_Z (ms mod 60000) / inject_Z 1000) 0) with false; [reflexivity|].
  symmetry. unfold Qdiv, Qmult, Qinv, inject_Z; simpl.
  apply Qltb_nonneg. lia.
Qed.

(** Where the remainder is less than half a second past a whole second, the
    two agree. *)
Lemma formatDuration_as_specified (ms : Z) :
  (0 <= ms)%Z -> (ms mod 1000 < 500)%Z ->
  formatDuration ms = duration_as_specified ms.
Proof.
  intros Hms Hlt. rewrite formatDuration_rounds_seconds by exact Hms.
  unfold duration_as_specified.
  replace ((ms mod 60000 + 500) / 1000)%Z with ((ms mod 60000) / 1000)%Z; [reflexivity|].
  assert (Hm : (ms mod 60000 mod 1000 = ms mod 1000)%Z).
  { apply Z.mod_mod_divide. exists 60%Z. reflexivity. }
  pose proof (Z.div_mod (ms mod 60000) 1000 ltac:(lia)) as Hd.
  pose proof (Z.mod_pos_bound ms 1000 ltac:(lia)) as Hb.
  rewrite Hm in Hd.
  apply Z.div_unique with (r := (ms mod 1000 + 500)%Z).
  - left. lia.
  - lia.
Qed.

(** C6. The specification has the seconds field cut to whole seconds, hence
    between 00 and 59.  [formatDuration] rounds it instead ([toFixed(0)]):
    at 59500 ms it prints 0:60 where the specification has 0:59, and
    likewise at 59999 ms; at 239600 ms it prints 3:60 for 3:59. *)
Theorem formatDuration_seconds_reach_60 :
  formatDuration 59500 = "0:60" /\
  duration_as_specified 59500 = "0:59" /\
  formatDuration 59999 = "0:60" /\
  duration_as_specified 59999 = "0:59" /\
  formatDuration 239600 = "3:60" /\
  duration_as_specified 239600 = "3:59".
Proof. repeat split; vm_compute; reflexivity. Qed.

(** C7. The three durations of the specification. *)
Theorem formatDuration_examples :
  formatDuration 65000 = "1:05" /\
  formatDuration 600000 = "10:00" /\
  formatDuration 5000 = "0:05".
Proof. repeat split; vm_compute; reflexivity. Qed.

(** ** The mood panel *)

Lemma attr_of_child c a v : attr_of c a (child v) = None.
Proof. now destruct v. Qed.

(** C8. Whatever the confidence is, in [0,1] or not, the fill of the
    confidence bar gets as its width the binary64 product of the confidence
    and 100, printed in full and followed by a percent sign: the product is
    neither clamped nor passed through [toFixed].  For 0.73 the product is
    exactly 73 and the width is 73%; 0 gives 0%, 1 gives 100%, and 1.5
    gives 150%. *)
Theorem confidence_width_is_linear (moodAnalysis : MoodAnalysis.t) :
  confidence_fill_width moodAnalysis =
    Some (Number_toString (MoodAnalysis.confidence moodAnalysis * 100)%float ++ "%") /\
  (forall mood secondary reasoning elements,
     confidence_fill_width (MoodAnalysis.mk mood 0.73 secondary reasoning elements)
       = Some "73%" /\
     confidence_fill_width (MoodAnalysis.mk mood 0 secondary reasoning elements)
       = Some "0%" /\
     confidence_fill_width (MoodAnalysis.mk mood 1 secondary reasoning elements)
       = Some "100%" /\
     confidence_fill_width (MoodAnalysis.mk mood 1.5 secondary reasoning elements)
       = Some "150%") /\
  (0.73 * 100 = 73)%float.
Proof.
  assert (H : forall m, confidence_fill_width m =
            Some (Number_toString (MoodAnalysis.confidence m * 100)%float ++ "%")).
  { intros m. unfold confidence_fill_width, MoodDisplay.
    cbn [attr_of class_list class_list_from List.filter truthy_string existsb
         String.eqb Ascii.eqb Bool.eqb append orb Ascii.eqb].
    rewrite attr_of_child. reflexivity. }
  split; [apply H|]. split; [|vm_compute; reflexivity].
  intros mood secondary reasoning elements.
  rewrite !H. cbn [MoodAnalysis.confidence].
  repeat split; vm_compute; reflexivity.
Qed.

(** *** The emoji of a mood *)

Lemma toLowerCase_char_idempotent c :
  toLowerCase_char (toLowerCase_char c) = toLowerCase_char c.
Proof. destruct c as [[|] [|] [|] [|] [|] [|] [|] [|]]; reflexivity. Qed.

Lemma toLowerCase_idempotent s : toLowerCase (toLowerCase s) = toLowerCase s.
Proof.
  induction s as [|c s IH]; simpl; [reflexivity|].
  now rewrite toLowerCase_char_idempotent, IH.
Qed.

(** A lower-cased label is its own lower-casing. *)
Lemma toLowerCase_fixed mood key :
  toLowerCase mood = key -> toLowerCase key = key.
Proof. intros <-. apply toLowerCase_idempotent. Qed.

(** Of the properties of [Object.prototype], a lower-cased label can only
    name [constructor] and [__proto__]: the others have a capital letter. *)
Lemma inherited_keys mood v :
  Object_prototype (toLowerCase mood) = Some v ->
  toLowerCase mood = "constructor" \/ toLowerCase mood = "__proto__".
Proof.
  unfold Object_prototype.
  destruct (String.eqb_spec (toLowerCase mood) "constructor") as [E|_]; [now left|].
  destruct (String.eqb_spec (toLowerCase mood) "__proto__") as [E|_]; [now right|].
  destruct (existsb _ _) eqn:E; [|discriminate].
  intros _. exfalso.
  apply existsb_exists in E as (key & Hin & Hkey).
  apply String.eqb_eq in Hkey.
  pose proof (toLowerCase_fixed _ _ Hkey) as Hfix. subst key.
  simpl in Hin.
  repeat (destruct Hin as [Hin|Hin];
          [rewrite <- Hin in Hfix; vm_compute in Hfix; discriminate Hfix|]).
  exact Hin.
Qed.

(** Every emoji of the table is a non-empty string. *)
Lemma moodEmojis_truthy key emoji :
  moodEmojis !! key = Some emoji -> truthy_string emoji = true.
Proof.
  intros H. apply elem_of_list_to_map_2 in H.
  repeat (apply elem_of_cons in H as [H|H]; [now inversion H|]).
  now apply elem_of_nil in H.
Qed.

(** Away from the two inherited names, the emoji is the one of the table
    under the lower-cased label, or the fallback when the table has none. *)
Lemma getMoodEmoji_table mood :
  toLowerCase mood <> "constructor" ->
  toLowerCase mood <> "__proto__" ->
  getMoodEmoji mood =
    VString (default fallback_emoji (moodEmojis !! toLowerCase mood)).
Proof.
  intros Hc Hp. unfold getMoodEmoji, get.
  destruct (moodEmojis !! toLowerCase mood) as [emoji|] eqn:E; simpl.
  - now rewrite (moodEmojis_truthy _ _ E).
  - destruct (Object_prototype (toLowerCase mood)) as [v|] eqn:Ev; [|reflexivity].
    apply inherited_keys in Ev as [Ev|Ev]; contradiction.
Qed.

(** C9. The lookup [moodEmojis[...]] also finds what the object literal
    inherits.  The label [constructor] is not in the table, yet it yields
    the function [Object], which is truthy, so the fallback is not taken and
    the emoji box is left empty; the label [__proto__] yields the prototype
    object, which React refuses as a child, so the render of the whole panel
    throws, for the primary mood and for a secondary mood alike.  A label
    such as [ecstatic] does get the fallback, and [Calm] the emoji of [calm]. *)
Theorem getMoodEmoji_inherited_names :
  moodEmojis !! "constructor" = None /\
  moodEmojis !! "__proto__" = None /\
  getMoodEmoji "constructor" = VFunction "Object" /\
  getMoodEmoji "__proto__" = VObject "Object.prototype" /\
  rendered_emoji "constructor" = Some [DElem "div" "mood-emoji" [] []] /\
  rendered_emoji "__proto__" = None /\
  render_dom (MoodDisplay (analysis_of "__proto__" [])) = None /\
  render_dom (MoodDisplay (analysis_of "Calm" ["__proto__"])) = None /\
  rendered_emoji "ecstatic" = Some [DElem "div" "mood-emoji" [] [DText fallback_emoji]] /\
  rendered_emoji "Calm" = Some [DElem "div" "mood-emoji" [] [DText "😌"]].
Proof. repeat split; vm_compute; reflexivity. Qed.

(** ** Optional lists *)

Lemma has_class_child c v : has_class c (child v) = false.
Proof. now destruct v. Qed.

Lemma has_class_imap {A} c (f : nat -> A -> jsx) (l : list A) :
  (forall i x, has_class c (f i x) = false) ->
  existsb (has_class c) (imap f l) = false.
Proof.
  revert f. induction l as [|x l IH]; intros f Hf; simpl; [reflexivity|].
  rewrite Hf. simpl. apply IH. intros i y. apply Hf.
Qed.

Lemma has_class_map {A} c (f : A -> jsx) (l : list A) :
  (forall x, has_class c (f x) = false) ->
  existsb (has_class c) (map f l) = false.
Proof.
  intros Hf. induction l as [|x l IH]; simpl; [reflexivity|].
  now rewrite Hf, IH.
Qed.

Lemma has_class_and_string c m k :
  (forall s, has_class c (k s) = false) -> has_class c (and_string m k) = false.
Proof.
  intros Hk. destruct m as [| |s]; simpl; try reflexivity.
  destruct (truthy_string s); [apply Hk|reflexivity].
Qed.

Lemma has_class_and_number c m k :
  (forall n, has_class c (k n) = false) -> has_class c (and_number m k) = false.
Proof.
  intros Hk. destruct m as [| |n]; simpl; try reflexivity.
  destruct (n =? 0)%Z; [reflexivity|apply Hk].
Qed.

Ltac section_cases H :=
  unfold section_class in H;
  repeat (apply orb_prop in H as [H|H]);
  apply String.eqb_eq in H; subst.

Lemma has_class_track_card c i track :
  section_class c = true -> has_class c (track_card i track) = false.
Proof.
  intros H. unfold track_card.
  section_cases H; cbn [has_class existsb];
    rewrite !has_class_and_string by reflexivity; reflexivity.
Qed.

Lemma has_class_playlist_card c playlist :
  section_class c = true -> has_class c (playlist_card playlist) = false.
Proof.
  intros H. unfold playlist_card.
  section_cases H; cbn [has_class existsb];
    rewrite !has_class_and_string by reflexivity;
    rewrite has_class_and_number by reflexivity; reflexivity.
Qed.

Lemma genres_section recommendations playlists :
  has_class "genres" (MusicRecommendations recommendations playlists) =
  negb (nothing_to_list (Recommendations.genres recommendations)).
Proof.
  unfold MusicRecommendations. cbn [has_class existsb].
  rewrite (has_class_imap "genres") by (intros; now apply has_class_track_card).
  destruct (Recommendations.genres recommendations) as [| |[|g gs]];
    destruct playlists as [| |[|p ps]]; try reflexivity;
    cbn [and_nonempty length Nat.ltb Nat.leb has_class existsb];
    rewrite (has_class_map "genres") by (intros; now apply has_class_playlist_card);
    reflexivity.
Qed.

Lemma playlists_section recommendations playlists :
  has_class "playlists-container" (MusicRecommendations recommendations playlists) =
  negb (nothing_to_list playlists).
Proof.
  unfold MusicRecommendations. cbn [has_class existsb].
  rewrite (has_class_imap "playlists-container")
    by (intros; now apply has_class_track_card).
  destruct (Recommendations.genres recommendations) as [| |[|g gs]];
    destruct playlists as [| |[|p ps]]; try reflexivity;
    cbn [and_nonempty length Nat.ltb Nat.leb has_class existsb];
    rewrite (has_class_map "playlists-container") by reflexivity; reflexivity.
Qed.

Lemma secondary_moods_section moodAnalysis :
  has_class "secondary-moods" (MoodDisplay moodAnalysis) =
  negb (nothing_to_list (MoodAnalysis.secondary_moods moodAnalysis)).
Proof.
  unfold MoodDisplay. cbn [has_class existsb].
  rewrite has_class_child.
  destruct (MoodAnalysis.secondary_moods moodAnalysis) as [| |[|m ms]];
    try reflexivity;
    cbn [and_nonempty length Nat.ltb Nat.leb has_class existsb];
    rewrite has_class_and_string by reflexivity;
    destruct (MoodAnalysis.visual_elements moodAnalysis) as [| |elements];
    try reflexivity;
    cbn [and_object has_class existsb];
    rewrite (has_class_map "secondary-moods") by reflexivity; reflexivity.
Qed.

(** * Further properties *)

(** ** Upload Capture: what is accepted *)

Lemma startsWith_prefix s p :
  startsWith s p = true <-> exists rest, s = p ++ rest.
Proof.
  revert s. induction p as [|a p IH]; intros s.
  - split; [intros _; now exists s|now destruct s].
  - destruct s as [|b s]; simpl.
    + split; [discriminate|]. intros [rest H]. discriminate H.
    + rewrite andb_true_iff, IH, Ascii.eqb_eq. split.
      * intros [-> [rest ->]]. now exists rest.
      * intros [rest H]. injection H as -> ->. split; [reflexivity|now exists rest].
Qed.

(** X1. [handleFile] goes by the declared type alone, and only by its
    beginning.  When the type is [image/] followed by anything (nothing
    included), it starts the read of the preview and then hands this same
    file to the submit operation; for every other type, the empty one
    included, it shows the alert and does nothing else. *)
Theorem handleFile_goes_by_type_prefix (submit : File.t -> Action) (file : File.t)
    (w : World) :
  ((exists rest, File.type file = "image/" ++ rest) /\
   handleFile submit file w = submit file (readAsDataURL file w)) \/
  ((forall rest, File.type file <> "image/" ++ rest) /\
   handleFile submit file w = alert "Please upload an image file" w).
Proof.
  destruct (is_image file) eqn:E.
  - left. split; [now apply startsWith_prefix|now apply handleFile_image].
  - right. split; [|now apply handleFile_not_image].
    intros rest H.
    assert (Ht : is_image file = true) by (apply startsWith_prefix; now exists rest).
    congruence.
Qed.

(** ** Runs: requests and alerts *)

Lemma alerts_step ev w :
  alerts (browser (step ev w)) =
  if rejects ev then (alerts (browser w) ++ ["Please upload an image file"])%list
  else alerts (browser w).
Proof.
  unfold step, andThen; rewrite browser_reconcile.
  destruct ev as [type|files|files| |i url|id o| ]; unfold dispatch, rejects.
  - unfold handleDrag. destruct (_ || _); [reflexivity|]. now destruct (_ =? _).
  - unfold handleDrop, andThen. destruct files as [|f fs]; [reflexivity|].
    unfold handleFile, is_image. now destruct (startsWith _ _).
  - unfold handleChange. destruct files as [|f fs]; [reflexivity|].
    unfold handleFile, is_image. now destruct (startsWith _ _).
  - reflexivity.
  - destruct (nth_error _ _) as [[owner f]|]; [|reflexivity].
    unfold andThen. now destruct (Nat.eqb owner _).
  - destruct (existsb _ _); [|reflexivity].
    unfold andThen. now rewrite handleImageUpload_resume_spec.
  - now destruct (result_or_error _).
Qed.

Lemma accepted_snoc evs ev :
  accepted (evs ++ [ev])%list =
  (accepted evs ++ match submits ev with Some file => [file] | None => [] end)%list.
Proof.
  unfold accepted. rewrite omap_app. simpl. now destruct (submits ev).
Qed.

(** X2. Over any sequence of events from the start, the requests sent are,
    in order, one per drop or selection whose first file is an image, each
    the POST of that first file, as the one field [file], to the analysis
    address.  The further files of a drop, a first file that is not an image,
    an empty drop and every other event send nothing.  The alerts shown are
    one per drop or selection whose first file is not an image. *)
Theorem requests_are_the_accepted_files (evs : list Event) :
  outbound (browser (run evs World_initial)) = map the_request (accepted evs) /\
  alerts (browser (run evs World_initial)) =
    repeat "Please upload an image file" (length (List.filter rejects evs)).
Proof.
  induction evs as [|ev evs [IHo IHa]] using rev_ind; [now split|].
  rewrite run_snoc, outbound_step, alerts_step, IHo, IHa, accepted_snoc.
  split.
  - rewrite map_app. destruct (submits ev); [reflexivity|].
    simpl. now rewrite app_nil_r.
  - rewrite List.filter_app, length_app. simpl.
    destruct (rejects ev); simpl.
    + rewrite repeat_app. reflexivity.
    + now rewrite Nat.add_0_r.
Qed.

(** ** The page and the state *)

Ltac literal_cases H :=
  simpl in H; repeat (destruct H as [H|H]; [subst|]); try contradiction.

Lemma MoodDisplay_has_no c moodAnalysis :
  In c ["loading"; "error-message"; "music-recommendations"] ->
  has_class c (MoodDisplay moodAnalysis) = false.
Proof.
  intros H. unfold MoodDisplay.
  literal_cases H; cbn [has_class existsb]; rewrite has_class_child;
    (destruct (MoodAnalysis.secondary_moods moodAnalysis) as [| |[|m ms]];
     cbn [and_nonempty length Nat.ltb Nat.leb has_class existsb];
     rewrite ?has_class_child;
     rewrite ?has_class_map
       by (intros; cbn [has_class existsb]; now rewrite has_class_child);
     rewrite has_class_and_string by reflexivity;
     destruct (MoodAnalysis.visual_elements moodAnalysis) as [| |elements];
     cbn [and_object has_class existsb];
     rewrite ?has_class_map by reflexivity; reflexivity).
Qed.

Lemma track_card_has_no c i track :
  In c ["loading"; "error-message"] -> has_class c (track_card i track) = false.
Proof.
  intros H. unfold track_card.
  literal_cases H; cbn [has_class existsb];
    rewrite !has_class_and_string by reflexivity; reflexivity.
Qed.

Lemma playlist_card_has_no c playlist :
  In c ["loading"; "error-message"] -> has_class c (playlist_card playlist) = false.
Proof.
  intros H. unfold playlist_card.
  literal_cases H; cbn [has_class existsb];
    rewrite !has_class_and_string by reflexivity;
    rewrite has_class_and_number by reflexivity; reflexivity.
Qed.

Lemma MusicRecommendations_has_no c recommendations playlists :
  In c ["loading"; "error-message"] ->
  has_class c (MusicRecommendations recommendations playlists) = false.
Proof.
  intros H. unfold MusicRecommendations.
  assert (Ht : existsb (has_class c)
                 (imap track_card (Recommendations.tracks recommendations)) = false)
    by (apply has_class_imap; intros; now apply track_card_has_no).
  assert (Hp : forall ps, existsb (has_class c) (map playlist_card ps) = false)
    by (intros ps; apply has_class_map; intros; now apply playlist_card_has_no).
  literal_cases H; cbn [has_class existsb]; rewrite Ht;
    (destruct (Recommendations.genres recommendations) as [| |[|g gs]];
     destruct playlists as [| |[|p ps]];
     cbn [and_nonempty length Nat.ltb Nat.leb has_class existsb];
     rewrite ?has_class_map by reflexivity; rewrite ?Hp; reflexivity).
Qed.

Lemma page_shows w :
  has_class "loading" (App w) = analyzing (app w) /\
  has_class "error-message" (App w) = error_shown (app w) /\
  has_class "mood-display" (App w) = has_result (app w) /\
  has_class "music-recommendations" (App w) = has_result (app w) /\
  has_class "reset-button" (App w) = result_or_error (app w).
Proof.
  split; [|split; [|split; [|split; [|apply reset_button_rendered]]]];
    unfold App, ImageUpload, and_result_or_error, and_message, error_shown, has_result;
    destruct (result (app w)) as [data|];
    destruct (has_preview (upload w)), (dragActive (upload w)), (analyzing (app w)),
      (error (app w)) as [[|ch e]|];
    cbn [has_class existsb and_bool truthy_string];
    rewrite ?MoodDisplay_has_no by (simpl; tauto);
    rewrite ?MusicRecommendations_has_no by (simpl; tauto);
    reflexivity.
Qed.

(** ** A new upload over an old outcome *)

Lemma upload_step_submit ev file w :
  reachable w ->
  submits ev = Some file ->
  preview (upload (step ev w)) = preview (upload w) /\
  upload_key (step ev w) = upload_key w.
Proof.
  intros Hr Hs. pose proof (reachable_mounted w Hr) as Hk.
  unfold step, andThen, reconcile.
  destruct ev as [type|files|files| |i url|id o| ]; try (simpl in Hs; discriminate);
    destruct files as [|f fs]; try (simpl in Hs; discriminate);
    unfold submits in Hs; destruct (is_image f) eqn:Hi; try discriminate;
    unfold dispatch, handleDrop, handleChange, andThen;
    rewrite handleFile_image by exact Hi; simpl; rewrite Hk, Nat.eqb_refl; now split.
Qed.

(** X6. A drop or a selection of an image starts over from any reachable
    world, whatever it holds: the result and the error of an earlier upload
    are both cleared and the flag is set before the request leaves, so the
    page shows the spinner and no longer the old panels, the old error or the
    reset button.  The old preview stays until the read of the new file
    ends. *)
Theorem new_upload_clears_old_outcome (w : World) (ev : Event) (file : File.t) :
  reachable w ->
  submits ev = Some file ->
  is_Analyzing (app (step ev w)) /\
  has_class "loading" (App (step ev w)) = true /\
  has_class "mood-display" (App (step ev w)) = false /\
  has_class "music-recommendations" (App (step ev w)) = false /\
  has_class "error-message" (App (step ev w)) = false /\
  has_class "reset-button" (App (step ev w)) = false /\
  preview (upload (step ev w)) = preview (upload w).
Proof.
  intros Hr Hs.
  pose proof (app_step_submit ev file w Hs) as Happ.
  destruct (page_shows (step ev w)) as (Hl & He & Hm & Hmu & Hb).
  rewrite Hl, He, Hm, Hmu, Hb.
  unfold is_Analyzing, lifecycle, error_shown, has_result, result_or_error.
  rewrite Happ. repeat split.
  now apply upload_step_submit with (file := file).
Qed.

Lemma new_upload_clears_old_outcome_witness :
  reachable failed_world /\
  submits (Change [jpeg]) = Some jpeg /\
  is_Failed (app failed_world) /\
  is_Analyzing (app (step (Change [jpeg]) failed_world)) /\
  has_class "error-message" (App (step (Change [jpeg]) failed_world)) = false.
Proof.
  assert (Hr : reachable failed_world) by (apply reachable_run; constructor).
  split; [exact Hr|]. split; [reflexivity|]. split; [discriminate|].
  pose proof (new_upload_clears_old_outcome failed_world (Change [jpeg]) jpeg
                Hr eq_refl) as H.
  split; apply H.
Defined.

(** ** One upload at a time *)

(** X7. After any sequence of events in which the upload surface received
    nothing while the in-flight flag was set, [App] is in exactly one of four
    states: Idle (nothing stored, flag down), Analyzing (nothing stored, flag
    set), Succeeded (a result and no error, flag down) or Failed (an error
    and no result, flag down).  At most one request is in flight, and the
    flag is set exactly while one is. *)
Theorem four_states_when_one_at_a_time (evs : list Event) :
  inert_while_analyzing evs World_initial = true ->
  let w := run evs World_initial in
  (is_Idle (app w) \/ is_Analyzing (app w) \/
   (analyzing (app w) = false /\ is_Succeeded (app w) /\ error (app w) = None) \/
   (analyzing (app w) = false /\ is_Failed (app w) /\ result (app w) = None)) /\
  length (in_flight (browser w)) <= 1 /\
  (analyzing (app w) = true <-> in_flight (browser w) <> []).
Proof.
  intros Hinert w.
  pose proof (one_at_a_time_run evs Hinert) as Hinv. fold w in Hinv.
  unfold one_at_a_time in Hinv.
  unfold is_Idle, is_Analyzing, is_Succeeded, is_Failed, lifecycle in *.
  destruct (in_flight (browser w)) as [|id [|id' l]]; [| |contradiction].
  - destruct Hinv as [Ha Hone]. rewrite Ha. simpl. split; [|split; [lia|]].
    + destruct (result (app w)) as [data|], (error (app w)) as [message|];
        destruct Hone as [H|H]; try discriminate H.
      * right; right; left. repeat split. discriminate.
      * right; right; right. repeat split. discriminate.
      * now left.
      * now left.
    + split; [discriminate|congruence].
  - injection Hinv as Ha Hr He. split; [|split; [simpl; lia|]].
    + right; left. now rewrite Ha, Hr, He.
    + split; [discriminate|now intros _].
Qed.

Lemma four_states_when_one_at_a_time_witness :
  inert_while_analyzing [Change [png]; ReaderLoadEnd 0 "data:"] World_initial = true /\
  length (in_flight (browser (run [Change [png]; ReaderLoadEnd 0 "data:"]
                                  World_initial))) <= 1.
Proof.
  split; [reflexivity|].
  apply (four_states_when_one_at_a_time [Change [png]; ReaderLoadEnd 0 "data:"]).
  reflexivity.
Defined.

(** X8. In such a run, while [App] is analyzing there is no way out but the
    response: the reset button is not on the page, a click where it would be
    changes nothing, and the end of a file read leaves the flags alone.  No
    event of the page times the request out. *)
Theorem analyzing_waits_for_the_response (evs : list Event) (ev : Event) :
  inert_while_analyzing evs World_initial = true ->
  analyzing (app (run evs World_initial)) = true ->
  (forall id o, ev <> FetchSettled id o) ->
  on_upload_surface ev = false ->
  let w := run evs World_initial in
  has_class "reset-button" (App w) = false /\
  step ResetClick w = w /\
  app (step ev w) = app w /\
  is_Analyzing (app (step ev w)).
Proof.
  intros Hinert Ha Hev Hsurf w.
  pose proof (one_at_a_time_run evs Hinert) as Hinv. fold w in Hinv, Ha.
  assert (Hr : reachable w) by (apply reachable_run; constructor).
  unfold one_at_a_time, is_Analyzing, lifecycle in *.
  assert (Hl : (analyzing (app w), result (app w), error (app w)) = (true, None, None)).
  { destruct (in_flight (browser w)) as [|id [|id' l]]; [|exact Hinv|contradiction].
    destruct Hinv as [Hf _]. congruence. }
  injection Hl as _ Hres Herr.
  assert (Hb : result_or_error (app w) = false)
    by (unfold result_or_error; now rewrite Hres, Herr).
  assert (Hreset : step ResetClick w = w).
  { unfold step, dispatch, andThen, reconcile. rewrite Hb.
    now rewrite (reachable_mounted w Hr), Nat.eqb_refl. }
  assert (Happ : app (step ev w) = app w).
  { destruct ev as [type|files|files| |i url|id o| ]; try discriminate Hsurf.
    - now rewrite app_step.
    - exfalso. now apply (Hev id o).
    - now rewrite Hreset. }
  rewrite (proj2 (proj2 (proj2 (proj2 (page_shows w))))), Hb, Happ, Ha, Hres, Herr.
  repeat split. exact Hreset.
Qed.

Lemma analyzing_waits_for_the_response_witness :
  inert_while_analyzing [Change [png]] World_initial = true /\
  analyzing (app (run [Change [png]] World_initial)) = true /\
  on_upload_surface ResetClick = false /\
  step ResetClick (run [Change [png]] World_initial) = run [Change [png]] World_initial.
Proof.
  split; [reflexivity|]. split; [reflexivity|]. split; [reflexivity|].
  apply (analyzing_waits_for_the_response [Change [png]] ResetClick);
    try reflexivity.
  intros id o. discriminate.
Defined.

(** ** File reads and the preview *)

Lemma readers_step ev w :
  readers (browser (step ev w)) =
  match ev with
  | ReaderLoadEnd i _ =>
      match nth_error (readers (browser w)) i with
      | Some _ => remove_nth i (readers (browser w))
      | None => readers (browser w)
      end
  | _ =>
      match submits ev with
      | Some file => (readers (browser w) ++ [(upload_key w, file)])%list
      | None => readers (browser w)
      end
  end.
Proof. by_event ev. Qed.

Lemma Forall_remove_nth {A} (P : A -> Prop) i (l : list A) :
  Forall P l -> Forall P (remove_nth i l).
Proof.
  revert i. induction l as [|x l IH]; intros i H; [now destruct i|].
  inversion H; subst. destruct i; simpl; [assumption|]. constructor; auto.
Qed.

(** In a reachable world no pending read belongs to an instance newer than
    the mounted one. *)
Lemma readers_not_newer w :
  reachable w ->
  Forall (fun r => fst r <= upload_key w) (readers (browser w)).
Proof.
  induction 1 as [|ev w Hr IH]; [constructor|].
  pose proof (reachable_mounted w Hr) as Hk.
  pose proof (reachable_mounted (step ev w) (reachable_step ev w Hr)) as Hk'.
  assert (Hmono : upload_key w <= upload_key (step ev w)).
  { rewrite Hk', Hk, app_step.
    destruct ev as [type|files|files| |i url|id o| ]; simpl; try lia.
    - destruct (match files with [] => None | _ => _ end); simpl; lia.
    - destruct (match files with [] => None | _ => _ end); simpl; lia.
    - destruct (in_flightb id w); simpl; lia.
    - destruct (result_or_error (app w)); simpl; lia. }
  assert (Hold : Forall (fun r => fst r <= upload_key (step ev w)) (readers (browser w))).
  { eapply List.Forall_impl; [|exact IH]. simpl. intros r Hle. lia. }
  rewrite readers_step.
  destruct ev as [type|files|files| |i url|id o| ];
    try (destruct (submits _); [apply Forall_app; split;
           [exact Hold|constructor; [simpl; lia|constructor]]|exact Hold]).
  destruct (nth_error _ _); [now apply Forall_remove_nth|exact Hold].
Qed.

Lemma stale_reader_end w i url :
  upload_key w = resetKey (app w) ->
  readers_are_stale w ->
  let w' := step (ReaderLoadEnd i url) w in
  upload w' = upload w /\ app w' = app w /\ upload_key w' = upload_key w /\
  readers_are_stale w'.
Proof.
  intros Hk Hst w'. unfold readers_are_stale in *.
  assert (Hup : upload w' = upload w /\ upload_key w' = upload_key w).
  { subst w'. unfold step, dispatch, andThen, reconcile.
    destruct (nth_error (readers (browser w)) i) as [[owner f]|] eqn:E.
    - apply nth_error_In in E.
      rewrite List.Forall_forall in Hst. specialize (Hst _ E). simpl in Hst.
      destruct (Nat.eqb_spec owner (upload_key w)) as [->|_]; [lia|].
      simpl. now rewrite Hk, Nat.eqb_refl.
    - now rewrite Hk, Nat.eqb_refl. }
  destruct Hup as [Hu Hkey].
  split; [exact Hu|]. split; [subst w'; now rewrite app_step|]. split; [exact Hkey|].
  rewrite Hkey. subst w'. rewrite readers_step.
  destruct (nth_error _ _); [now apply Forall_remove_nth|exact Hst].
Qed.

(** X9. A read of a file that was started before a reset never fills the
    preview after it.  From a reachable world where the reset button is on
    the page, click it and let any number of pending reads end, in any
    order: the preview stays empty and the flags stay those of Idle. *)
Theorem reset_outlives_pending_reads (w : World) (ends : list Event) :
  reachable w ->
  result_or_error (app w) = true ->
  forallb is_reader_end ends = true ->
  let w' := run ends (step ResetClick w) in
  preview (upload w') = None /\
  upload w' = ImageUpload_initial /\
  is_Idle (app w').
Proof.
  intros Hr Hb Hends w'.
  set (w1 := step ResetClick w).
  assert (Hr1 : reachable w1) by now constructor.
  assert (Happ1 : app w1 = mkApp false None None (resetKey (app w) + 1))
    by (unfold w1; now rewrite app_step, Hb).
  assert (Hk1 : upload_key w1 = resetKey (app w) + 1)
    by (rewrite (reachable_mounted w1 Hr1), Happ1; reflexivity).
  assert (Hu1 : upload w1 = ImageUpload_initial).
  { unfold w1, step, dispatch, andThen, reconcile. rewrite Hb.
    unfold handleReset, andThen; simpl.
    rewrite (reachable_mounted w Hr).
    destruct (Nat.eqb_spec (resetKey (app w)) (resetKey (app w) + 1)); [lia|reflexivity]. }
  assert (Hst1 : readers_are_stale w1).
  { unfold readers_are_stale. rewrite Hk1. unfold w1. rewrite readers_step. simpl.
    eapply List.Forall_impl; [|exact (readers_not_newer w Hr)].
    simpl. intros r Hle. rewrite (reachable_mounted w Hr) in Hle. lia. }
  assert (Hgen : forall evs v,
            forallb is_reader_end evs = true ->
            upload_key v = resetKey (app v) -> readers_are_stale v ->
            upload (run evs v) = upload v /\ app (run evs v) = app v).
  { induction evs as [|e evs IH]; intros v He Hkv Hsv; [now split|].
    simpl in He. apply andb_prop in He as [He1 He2].
    destruct e as [| | | |i url| | ]; try discriminate He1.
    destruct (stale_reader_end v i url Hkv Hsv) as (Hu & Ha & Hkey & Hs).
    simpl. destruct (IH (step (ReaderLoadEnd i url) v) He2) as [Hu' Ha'];
      [now rewrite Hkey, Ha|exact Hs|].
    rewrite Hu', Ha'. now split. }
  destruct (Hgen ends w1 Hends (reachable_mounted w1 Hr1) Hst1) as [Hu Ha].
  subst w'. fold w1. rewrite Hu, Ha, Hu1, Happ1. now repeat split.
Qed.

Lemma reset_outlives_pending_reads_witness :
  let w := run [Change [png]; FetchSettled 0 (Resolved error_response)] World_initial in
  reachable w /\
  result_or_error (app w) = true /\
  readers (browser w) = [(0, png)] /\
  preview (upload (run [ReaderLoadEnd 0 "data:image/png;base64,UE5H"]
                       (step ResetClick w))) = None.
Proof.
  intros w.
  assert (Hr : reachable w) by (apply reachable_run; constructor).
  split; [exact Hr|]. split; [reflexivity|]. split; [reflexivity|].
  apply (reset_outlives_pending_reads w [ReaderLoadEnd 0 "data:image/png;base64,UE5H"]
           Hr eq_refl eq_refl).
Defined.

(** ** The shape of a duration *)

Lemma seconds_field_two_characters (sec : Z) :
  (0 <= sec <= 60)%Z -> String.length (padStart 2 "0"%char (digits sec)) = 2.
Proof.
  intros Hsec.
  assert (Hall : forallb (fun n => Nat.eqb (String.length
                   (padStart 2 "0"%char (digits (Z.of_nat n)))) 2) (seq 0 61) = true)
    by (vm_compute; reflexivity).
  rewrite forallb_forall in Hall.
  specialize (Hall (Z.to_nat sec)).
  rewrite Z2Nat.id in Hall by lia.
  apply Nat.eqb_eq, Hall, in_seq. lia.
Qed.

(** X10. For a duration of [ms] milliseconds, a whole number from 0 to below
    [2^53] (where the numbers of the source are exact), [formatDuration] prints
    the whole minutes, a colon and a seconds field of exactly two characters.
    The seconds are those of the remainder rounded to the nearest second,
    between 0 and 60; they read 60 exactly when the remainder is 59.5 s or
    more, and the minutes are not moved on for it. *)
Theorem formatDuration_shape (ms : Z) :
  (0 <= ms < 2 ^ 53)%Z ->
  let sec := ((ms mod 60000 + 500) / 1000)%Z in
  formatDuration ms =
    digits (ms / 60000) ++ ":" ++ padStart 2 "0"%char (digits sec) /\
  (0 <= sec <= 60)%Z /\
  String.length (padStart 2 "0"%char (digits sec)) = 2 /\
  (sec = 60%Z <-> (59500 <= ms mod 60000)%Z).
Proof.
  intros [Hms _] sec.
  pose proof (Z.mod_pos_bound ms 60000 ltac:(lia)) as Hr.
  assert (Hsec : (0 <= sec <= 60)%Z).
  { subst sec. split; [apply Z.div_pos; lia|].
    apply Z.lt_succ_r, Z.div_lt_upper_bound; lia. }
  split; [now apply formatDuration_rounds_seconds|].
  split; [exact Hsec|]. split; [now apply seconds_field_two_characters|].
  subst sec. split.
  - intros H60.
    pose proof (Z.mul_div_le (ms mod 60000 + 500) 1000 ltac:(lia)) as Hle. lia.
  - intros Hge. symmetry. apply Z.div_unique with (r := (ms mod 60000 + 500 - 60000)%Z).
    + left. lia.
    + lia.
Qed.

Lemma formatDuration_shape_witness :
  (0 <= 215760 < 2 ^ 53)%Z /\
  formatDuration 215760 = "3:36" /\
  String.length (padStart 2 "0"%char (digits ((215760 mod 60000 + 500) / 1000))) = 2.
Proof.
  split; [lia|].
  pose proof (formatDuration_shape 215760 ltac:(lia)) as H.
  split; apply H.
Defined.

(** ** The emoji of the other labels *)

(** X11. For every label made of ASCII characters whose lower-casing is
    neither [constructor] nor [__proto__], the emoji is the one the table has for the lower-cased
    label, or the fallback when the table has none; it is a non-empty
    string, and the emoji box shows it as its only text.  The names of the
    methods an object inherits, such as [toString], are not found once
    lower-cased and get the fallback. *)
Theorem getMoodEmoji_of_other_labels (mood : string) :
  ascii_only mood = true ->
  toLowerCase mood <> "constructor" ->
  toLowerCase mood <> "__proto__" ->
  let emoji := default fallback_emoji (moodEmojis !! toLowerCase mood) in
  getMoodEmoji mood = VString emoji /\
  truthy_string emoji = true /\
  rendered_emoji mood = Some [DElem "div" "mood-emoji" [] [DText emoji]].
Proof.
  intros _ Hc Hp emoji.
  assert (Ht : truthy_string emoji = true).
  { subst emoji. destruct (moodEmojis !! toLowerCase mood) as [e|] eqn:E; simpl.
    - now apply moodEmojis_truthy with (key := toLowerCase mood).
    - reflexivity. }
  split; [now apply getMoodEmoji_table|]. split; [exact Ht|].
  unfold rendered_emoji. rewrite getMoodEmoji_table by assumption.
  fold emoji. simpl. now rewrite Ht.
Qed.

Lemma getMoodEmoji_of_other_labels_witness :
  ascii_only "toString" = true /\
  toLowerCase "toString" <> "constructor" /\
  toLowerCase "toString" <> "__proto__" /\
  getMoodEmoji "toString" = VString fallback_emoji /\
  getMoodEmoji "UpLifting" = VString "🌟".
Proof.
  split; [reflexivity|]. split; [discriminate|]. split; [discriminate|]. split.
  - apply (getMoodEmoji_of_other_labels "toString"); [reflexivity| |]; discriminate.
  - apply (getMoodEmoji_of_other_labels "UpLifting"); [reflexivity| |]; discriminate.
Defined.

(** ** Renders that throw *)

(** Induction on elements, with the children covered. *)
Lemma jsx_children_ind (P : jsx -> Prop) :
  P JFalse -> P JNull -> P JUndefined ->
  (forall s, P (JStr s)) -> (forall n, P (JNum n)) ->
  (forall name, P (JFunction name)) -> (forall name, P (JObject name)) ->
  (forall tag cls attrs kids, Forall P kids -> P (JElem tag cls attrs kids)) ->
  (forall kids, Forall P kids -> P (JFragment kids)) ->
  (forall items, Forall P items -> P (JArray items)) ->
  forall j, P j.
Proof.
  intros HF HN HU HS HNum HFun HObj HElem HFrag HArr.
  fix IH 1.
  intros [| | |s|n|name|name|tag cls attrs kids|kids|items];
    [exact HF|exact HN|exact HU|apply HS|apply HNum|apply HFun|apply HObj
    |apply HElem|apply HFrag|apply HArr];
    match goal with
    | |- Forall P ?l => induction l as [|k rest IHl]; constructor; [apply IH|exact IHl]
    end.
Qed.

Lemma render_dom_JElem tag cls attrs kids :
  render_dom (JElem tag cls attrs kids) =
  match render_dom (JFragment kids) with
  | Some ks => Some [DElem tag cls attrs ks]
  | None => None
  end.
Proof. reflexivity. Qed.

Lemma render_dom_JFragment_cons k rest :
  render_dom (JFragment (k :: rest)) =
  match render_dom k, render_dom (JFragment rest) with
  | Some a, Some b => Some (a ++ b)%list
  | _, _ => None
  end.
Proof. reflexivity. Qed.

Lemma render_dom_JArray items : render_dom (JArray items) = render_dom (JFragment items).
Proof. reflexivity. Qed.

Lemma render_children_throw kids :
  Forall (fun k => render_dom k = None <-> holds_object k = true) kids ->
  render_dom (JFragment kids) = None <-> existsb holds_object kids = true.
Proof.
  induction 1 as [|k rest Hk _ IH]; [split; discriminate|].
  rewrite render_dom_JFragment_cons. cbn [existsb].
  rewrite orb_true_iff, <- Hk, <- IH.
  destruct (render_dom k), (render_dom (JFragment rest));
    (split; [intros H; try discriminate H; auto
            |intros [H|H]; try discriminate H; reflexivity]).
Qed.

(** The render of a tree throws exactly when the tree holds an object. *)
Lemma render_dom_throws j : render_dom j = None <-> holds_object j = true.
Proof.
  induction j as [| | |s|n|name|name|tag cls attrs kids IH|kids IH|items IH]
    using jsx_children_ind;
    try (split; discriminate); try (split; reflexivity).
  - simpl. destruct (truthy_string s); split; discriminate.
  - rewrite render_dom_JElem. cbn [holds_object].
    rewrite <- (render_children_throw kids IH).
    destruct (render_dom (JFragment kids)); split; auto; discriminate.
  - now apply render_children_throw.
  - rewrite render_dom_JArray. now apply render_children_throw.
Qed.

Lemma holds_object_map {A} (f : A -> jsx) (l : list A) :
  existsb holds_object (map f l) = existsb (fun x => holds_object (f x)) l.
Proof. induction l as [|x l IH]; simpl; [reflexivity|now rewrite IH]. Qed.

Lemma holds_object_none {A} (f : A -> jsx) (l : list A) :
  (forall x, holds_object (f x) = false) ->
  existsb holds_object (map f l) = false.
Proof.
  intros Hf. rewrite holds_object_map.
  induction l as [|x l IH]; simpl; [reflexivity|now rewrite Hf, IH].
Qed.

Lemma holds_object_imap {A} (f : nat -> A -> jsx) (l : list A) :
  (forall i x, holds_object (f i x) = false) ->
  existsb holds_object (imap f l) = false.
Proof.
  revert f. induction l as [|x l IH]; intros f Hf; simpl; [reflexivity|].
  rewrite Hf. simpl. apply IH. intros i y. apply Hf.
Qed.

Lemma holds_object_and_string m k :
  (forall s, holds_object (k s) = false) -> holds_object (and_string m k) = false.
Proof.
  intros Hk. destruct m as [| |s]; simpl; try reflexivity.
  destruct (truthy_string s); [apply Hk|reflexivity].
Qed.

Lemma holds_object_and_number m k :
  (forall n, holds_object (k n) = false) -> holds_object (and_number m k) = false.
Proof.
  intros Hk. destruct m as [| |n]; simpl; try reflexivity.
  destruct (n =? 0)%Z; [reflexivity|apply Hk].
Qed.

Lemma holds_object_track_card i track : holds_object (track_card i track) = false.
Proof.
  unfold track_card. cbn [holds_object existsb].
  rewrite !holds_object_and_string by reflexivity. reflexivity.
Qed.

Lemma holds_object_playlist_card playlist : holds_object (playlist_card playlist) = false.
Proof.
  unfold playlist_card. cbn [holds_object existsb].
  rewrite !holds_object_and_string by reflexivity.
  rewrite holds_object_and_number by reflexivity. reflexivity.
Qed.

Lemma holds_object_MusicRecommendations recommendations playlists :
  holds_object (MusicRecommendations recommendations playlists) = false.
Proof.
  unfold MusicRecommendations. cbn [holds_object existsb].
  rewrite holds_object_imap by apply holds_object_track_card.
  destruct (Recommendations.genres recommendations) as [| |[|g gs]];
    destruct playlists as [| |[|p ps]];
    cbn [and_nonempty length Nat.ltb Nat.leb holds_object existsb];
    rewrite ?holds_object_none by reflexivity;
    rewrite ?holds_object_none by apply holds_object_playlist_card;
    rewrite ?holds_object_playlist_card; reflexivity.
Qed.

(** The emoji of a label is an object exactly for [__proto__]. *)
Lemma holds_object_emoji mood :
  holds_object (child (getMoodEmoji mood)) = names_prototype mood.
Proof.
  unfold getMoodEmoji, get, names_prototype, Object_prototype.
  destruct (moodEmojis !! toLowerCase mood) as [emoji|] eqn:E.
  - simpl. destruct (truthy_string emoji); simpl;
      destruct (String.eqb_spec (toLowerCase mood) "__proto__") as [Hp|_];
      try reflexivity; rewrite Hp in E; vm_compute in E; discriminate E.
  - destruct (String.eqb_spec (toLowerCase mood) "constructor") as [Hc|_].
    + rewrite Hc. reflexivity.
    + destruct (toLowerCase mood =? "__proto__"); [reflexivity|].
      now destruct (existsb _ _).
Qed.

Lemma holds_object_MoodDisplay moodAnalysis :
  holds_object (MoodDisplay moodAnalysis) = existsb names_prototype (labels moodAnalysis).
Proof.
  unfold MoodDisplay, labels. cbn [holds_object existsb].
  rewrite holds_object_emoji.
  rewrite holds_object_and_string by reflexivity.
  assert (Hv : holds_object
            (and_object (MoodAnalysis.visual_elements moodAnalysis) (fun visual_elements =>
               JElem "div" "visual-elements" [] [
                 JElem "h4" "" [] [JStr "Visual Elements"];
                 JElem "div" "elements-grid" [] [
                   JArray (map (fun entry =>
                     JElem "div" "element-item" [] [
                       JElem "span" "element-key" [] [JStr (fst entry); JStr ":"];
                       JElem "span" "element-value" [] [JStr (snd entry)]
                     ]) visual_elements)
                 ]
               ])) = false).
  { destruct (MoodAnalysis.visual_elements moodAnalysis) as [| |elements];
      cbn [and_object holds_object existsb]; try reflexivity.
    now rewrite holds_object_none by reflexivity. }
  rewrite Hv.
  destruct (MoodAnalysis.secondary_moods moodAnalysis) as [| |[|m ms]];
    cbn [and_nonempty length Nat.ltb Nat.leb holds_object existsb map];
    rewrite ?orb_false_r; try reflexivity.
  rewrite holds_object_emoji, holds_object_map.
  cbn [orb]. do 2 f_equal.
  induction ms as [|x xs IH]; cbn [existsb]; [reflexivity|].
  rewrite IH. cbn [holds_object existsb].
  now rewrite holds_object_emoji, !orb_false_r.
Qed.

Lemma holds_object_App w :
  holds_object (App w) =
  match result (app w) with
  | Some data => existsb names_prototype (labels (AnalysisResult.mood_analysis data))
  | None => false
  end.
Proof.
  unfold App, ImageUpload, and_result_or_error, and_message.
  destruct (result (app w)) as [data|];
    destruct (has_preview (upload w)), (analyzing (app w)), (error (app w)) as [[|ch e]|];
    cbn [holds_object existsb and_bool truthy_string negb];
    rewrite ?holds_object_MoodDisplay, ?holds_object_MusicRecommendations, ?orb_false_r;
    reflexivity.
Qed.

Lemma names_prototype_exists l :
  existsb names_prototype l = true <->
  exists label, In label l /\ toLowerCase label = "__proto__".
Proof.
  rewrite existsb_exists. unfold names_prototype.
  split; intros (label & Hin & H); exists label; split; auto;
    now apply String.eqb_eq.
Qed.

(** X12. The music panel renders for every response: nothing in it can make
    the render throw.  The mood panel throws exactly when the primary mood,
    or one of the secondary moods, lower-cases to [__proto__]. *)
Theorem panels_that_throw :
  (forall recommendations playlists,
     render_dom (MusicRecommendations recommendations playlists) <> None) /\
  (forall moodAnalysis,
     render_dom (MoodDisplay moodAnalysis) = None <->
     exists label, In label (labels moodAnalysis) /\ toLowerCase label = "__proto__").
Proof.
  split.
  - intros r p H. apply render_dom_throws in H.
    rewrite holds_object_MusicRecommendations in H. discriminate H.
  - intros m. now rewrite render_dom_throws, holds_object_MoodDisplay,
      names_prototype_exists.
Qed.

(** X13. With a stored result of the shape of the data model, the page as a
    whole fails to render exactly when the result has such a label; with no
    result stored (before an upload, while analyzing, after a failure or a
    reset) it always renders. *)
Theorem page_that_throws (w : World) :
  (render_dom (App w) = None <->
   exists data label,
     result (app w) = Some data /\
     In label (labels (AnalysisResult.mood_analysis data)) /\
     toLowerCase label = "__proto__") /\
  (result (app w) = None -> render_dom (App w) <> None).
Proof.
  rewrite render_dom_throws, holds_object_App. split.
  - destruct (result (app w)) as [data|].
    + rewrite names_prototype_exists. split.
      * intros (label & Hin & Hl). now exists data, label.
      * intros (data' & label & Hd & Hin & Hl). injection Hd as <-. now exists label.
    + split; [discriminate|]. intros (data & label & Hd & _). discriminate Hd.
  - intros Hr H. rewrite Hr in H. discriminate H.
Qed.

Lemma page_that_throws_witness :
  result (app analyzing_world) = None /\
  render_dom (App analyzing_world) <> None.
Proof.
  split; [reflexivity|].
  apply (page_that_throws analyzing_world). reflexivity.
Defined.

(** ** Optional parts of the panels *)

(** The sections of the analysis text and of the visual elements, in the
    tree the mood panel returns. *)
Lemma mood_panel_sections_in_tree :
  (forall moodAnalysis,
     has_class "reasoning" (MoodDisplay moodAnalysis) =
       shown (MoodAnalysis.reasoning moodAnalysis) /\
     has_class "visual-elements" (MoodDisplay moodAnalysis) =
       present (MoodAnalysis.visual_elements moodAnalysis)) /\
  (forall mood confidence secondary elements,
     render_dom (MoodDisplay (MoodAnalysis.mk mood confidence secondary (Have "") elements))
     = render_dom (MoodDisplay (MoodAnalysis.mk mood confidence secondary Undefined elements))) /\
  (forall mood confidence secondary reasoning,
     has_class "elements-grid"
       (MoodDisplay (MoodAnalysis.mk mood confidence secondary reasoning (Have []))) = true).
Proof.
  split; [|split].
  - intros m. unfold MoodDisplay, shown, present.
    split; cbn [has_class existsb]; rewrite has_class_child;
      (destruct (MoodAnalysis.secondary_moods m) as [| |[|x xs]];
       cbn [and_nonempty length Nat.ltb Nat.leb has_class existsb];
       rewrite ?has_class_child;
       rewrite ?has_class_map
         by (intros; cbn [has_class existsb]; now rewrite has_class_child);
       destruct (MoodAnalysis.reasoning m) as [| |r];
       cbn [and_string has_class existsb]; try destruct (truthy_string r);
       cbn [has_class existsb];
       destruct (MoodAnalysis.visual_elements m) as [| |elements];
       cbn [and_object has_class existsb];
       rewrite ?has_class_map by reflexivity; reflexivity).
  - reflexivity.
  - intros mood confidence secondary reasoning. unfold MoodDisplay.
    cbn [has_class existsb MoodAnalysis.primary_mood MoodAnalysis.secondary_moods
         MoodAnalysis.reasoning MoodAnalysis.visual_elements].
    rewrite has_class_child.
    destruct secondary as [| |[|x xs]];
      cbn [and_nonempty length Nat.ltb Nat.leb has_class existsb];
      rewrite ?has_class_child;
      rewrite ?has_class_map
        by (intros; cbn [has_class existsb]; now rewrite has_class_child);
      destruct reasoning as [| |r];
      cbn [and_string has_class existsb]; try destruct (truthy_string r);
      reflexivity.
Qed.

(** X15. In a track row the cover, the audio preview and the link are there
    exactly when their address is a non-empty string.  In a playlist card the
    cover, the description and the link likewise, and the line with the
    number of tracks exactly when the number is there and not zero.  A number
    of 0 is not left out, though: it is put on the page as the bare text 0,
    so the card differs from the one of a playlist without a number, which is
    the same as with [null]. *)
Theorem card_optional_parts :
  (forall i track,
     has_class "track-image" (track_card i track) = shown (Track.image track) /\
     has_class "track-preview" (track_card i track) = shown (Track.preview_url track) /\
     has_class "spotify-link" (track_card i track) = shown (Track.url track)) /\
  (forall playlist,
     has_class "playlist-image" (playlist_card playlist) = shown (Playlist.image playlist) /\
     has_class "playlist-description" (playlist_card playlist) =
       shown (Playlist.description playlist) /\
     has_class "playlist-tracks" (playlist_card playlist) = counted (Playlist.tracks playlist) /\
     has_class "playlist-link" (playlist_card playlist) = shown (Playlist.url playlist)) /\
  (forall name description image url,
     let card tracks := render_dom (playlist_card (Playlist.mk name description tracks image url)) in
     card (Have 0%Z) <> card Undefined /\ card Null = card Undefined).
Proof.
  split; [|split].
  - intros i [name artist album ms image preview_url url]. unfold track_card, shown.
    cbn [Track.image Track.preview_url Track.url Track.album Track.name Track.artist
         Track.duration_ms].
    destruct image as [| |s1], preview_url as [| |s2], url as [| |s3];
      cbn [and_string]; try destruct (truthy_string s1);
      try destruct (truthy_string s2); try destruct (truthy_string s3);
      repeat split; reflexivity.
  - intros [name description tracks image url]. unfold playlist_card, shown, counted.
    cbn [Playlist.image Playlist.description Playlist.tracks Playlist.url Playlist.name].
    destruct image as [| |s1], description as [| |s2], url as [| |s3],
      tracks as [| |n];
      cbn [and_string and_number]; try destruct (truthy_string s1);
      try destruct (truthy_string s2); try destruct (truthy_string s3);
      try destruct (n =? 0)%Z;
      repeat split; reflexivity.
  - intros name description image url card. split; [|reflexivity].
    subst card. unfold playlist_card.
    cbn [Playlist.image Playlist.description Playlist.tracks Playlist.url Playlist.name].
    destruct image as [| |s1], description as [| |s2], url as [| |s3];
      cbn [and_string and_number Z.eqb]; try destruct (truthy_string s1) eqn:E1;
      try destruct (truthy_string s2) eqn:E2; try destruct (truthy_string s3) eqn:E3;
      simpl; rewrite ?E1, ?E2, ?E3; destruct (truthy_string name); simpl;
      intros H; discriminate H.
Qed.

(** ** The upload area *)

(** X16. The upload area shows the prompt exactly when no preview is stored
    (none, or an empty one), and otherwise the preview image with the stored
    data as its source.  The hint to change the image is hidden while
    analyzing; the classes [drag-active] and [analyzing] follow the drag flag
    and the in-flight flag. *)
Theorem upload_area_follows_its_state (u : UploadState) (a : bool) :
  has_class "upload-prompt" (ImageUpload u a) = negb (has_preview u) /\
  has_class "preview-image" (ImageUpload u a) = has_preview u /\
  attr_of "preview-image" "src" (ImageUpload u a) =
    (if has_preview u then preview u else None) /\
  has_class "upload-text" (ImageUpload u a) = negb (has_preview u && a) /\
  has_class "drag-active" (ImageUpload u a) = dragActive u /\
  has_class "analyzing" (ImageUpload u a) = a.
Proof.
  destruct u as [d p]. unfold ImageUpload, has_preview. cbn [preview dragActive].
  destruct p as [[|c s]|]; destruct d, a; repeat split; reflexivity.
Qed.

(** ** Track rows *)

Lemma track_card_row i track :
  exists rest,
    render_dom (track_card i track) =
    Some [DElem "div" "track-card" [] (track_number i :: rest)].
Proof.
  pose proof (holds_object_track_card i track) as Hno.
  unfold track_card in *.
  rewrite render_dom_JElem, render_dom_JFragment_cons.
  match goal with
  | |- context [render_dom (JFragment ?kids)] =>
      assert (Hk : holds_object (JFragment kids) = false) by exact Hno;
      destruct (render_dom (JFragment kids)) as [rest|] eqn:E;
      [exists rest; reflexivity|apply render_dom_throws in E; congruence]
  end.
Qed.

Lemma track_rows_from (first : nat) (tracks : list Track.t) :
  exists rows,
    render_dom (JArray (imap (fun i => track_card (first + i)) tracks)) = Some rows /\
    length rows = length tracks /\
    forall i track, tracks !! i = Some track ->
      exists row rest,
        rows !! i = Some row /\
        render_dom (track_card (first + i) track) = Some [row] /\
        row = DElem "div" "track-card" [] (track_number (first + i) :: rest).
Proof.
  revert first. induction tracks as [|t ts IH]; intros first.
  - exists []. repeat split. intros i track H. discriminate H.
  - destruct (track_card_row (first + 0) t) as [rest Hrow].
    destruct (IH (S first)) as (rows & Hrows & Hlen & Hnth).
    exists (DElem "div" "track-card" [] (track_number (first + 0) :: rest) :: rows).
    assert (Hext : imap (fun i => track_card (first + i)) (t :: ts) =
                   track_card (first + 0) t :: imap (fun i => track_card (S first + i)) ts).
    { simpl. f_equal. apply imap_ext. intros i x _. simpl. f_equal. lia. }
    rewrite Hext, render_dom_JArray, render_dom_JFragment_cons, Hrow.
    rewrite render_dom_JArray in Hrows. rewrite Hrows.
    split; [reflexivity|]. split; [simpl; now rewrite Hlen|].
    intros [|i] track Hi; simpl in Hi.
    + injection Hi as <-. eexists _, rest. repeat split. exact Hrow.
    + destruct (Hnth i track Hi) as (row & rest' & H1 & H2 & H3).
      replace (first + S i) with (S first + i) by lia.
      exists row, rest'. now repeat split.
Qed.

(** X17. The list of tracks renders, for every response, to one row per
    track, in the order of the response; the row of the track at position
    [i] (from 0) is what its card renders to and opens with the number
    [i + 1].  The rows do not depend on the [track_count] of the response,
    which the heading prints as it came. *)
Theorem track_rows_in_order (tracks : list Track.t) :
  exists rows,
    render_dom (JArray (imap track_card tracks)) = Some rows /\
    length rows = length tracks /\
    forall i track, tracks !! i = Some track ->
      exists row rest,
        rows !! i = Some row /\
        render_dom (track_card i track) = Some [row] /\
        row = DElem "div" "track-card" [] (track_number i :: rest).
Proof. exact (track_rows_from 0 tracks). Qed.

(** ** Drags and clicks *)

Lemma without_drag_reconcile w :
  without_drag (reconcile w) = without_drag (reconcile (without_drag w)).
Proof. unfold reconcile, without_drag; simpl. now destruct (Nat.eqb _ _). Qed.

Lemma without_drag_step ev w :
  without_drag (step ev w) = without_drag (step ev (without_drag w)).
Proof.
  unfold step, andThen.
  rewrite without_drag_reconcile, (without_drag_reconcile (dispatch ev (without_drag w))).
  f_equal. f_equal.
  destruct ev as [type|files|files| |i url|id o| ]; unfold dispatch.
  - unfold handleDrag. destruct (_ || _); [reflexivity|]. now destruct (_ =? _).
  - unfold handleDrop, andThen. destruct files as [|f fs]; [reflexivity|].
    unfold handleFile. now destruct (startsWith _ _).
  - unfold handleChange. destruct files as [|f fs]; [reflexivity|].
    unfold handleFile. now destruct (startsWith _ _).
  - reflexivity.
  - simpl. destruct (nth_error _ _) as [[owner f]|]; [|reflexivity].
    unfold andThen. now destruct (Nat.eqb owner _).
  - simpl. destruct (existsb _ _); [|reflexivity].
    unfold andThen. now rewrite !handleImageUpload_resume_spec.
  - simpl. now destruct (result_or_error _).
Qed.

Lemma without_drag_cosmetic ev w :
  reachable w -> cosmetic ev = true ->
  without_drag (step ev w) = without_drag w.
Proof.
  intros Hr Hc. pose proof (reachable_mounted w Hr) as Hk.
  destruct ev as [type| | | | | | ]; try discriminate Hc;
    unfold step, dispatch, andThen, reconcile.
  - unfold handleDrag. destruct (_ || _); [|destruct (_ =? _)];
      unfold setDragActive, on_upload, skip, without_drag; cbn [app upload_key];
      rewrite !Hk, Nat.eqb_refl; cbn [app upload_key upload browser preview];
      now rewrite ?Hk.
  - unfold onButtonClick, skip. now rewrite Hk, Nat.eqb_refl.
Qed.

(** X18. Drag events and clicks on the upload area touch nothing but the
    drag flag.  Take any sequence of events from the start and leave the
    drags and the clicks out: the cells of [App], the preview, the mounted
    instance and all that the browser holds (requests, fetches in flight,
    alerts, pending reads) come out the same. *)
Theorem drags_and_clicks_are_cosmetic (evs : list Event) :
  let w := run evs World_initial in
  let w' := run (List.filter (fun ev => negb (cosmetic ev)) evs) World_initial in
  app w = app w' /\
  browser w = browser w' /\
  preview (upload w) = preview (upload w') /\
  upload_key w = upload_key w'.
Proof.
  assert (H : without_drag (run evs World_initial) =
              without_drag (run (List.filter (fun ev => negb (cosmetic ev)) evs)
                                World_initial)).
  { induction evs as [|ev evs IH] using rev_ind; [reflexivity|].
    rewrite List.filter_app, run_snoc. simpl.
    destruct (cosmetic ev) eqn:Hc; simpl.
    - rewrite app_nil_r, <- IH.
      apply without_drag_cosmetic; [apply reachable_run; constructor|exact Hc].
    - rewrite run_snoc, without_drag_step, IH, <- without_drag_step. reflexivity. }
  intros w w'. fold w w' in H. unfold without_drag in H.
  injection H as Ha Hk Hp Hb. now repeat split.
Qed.

(** * What reaches the document *)

Lemma rendered_children_classes c kids :
  Forall (fun k => forall ds, render_dom k = Some ds ->
                   existsb (dom_has_class c) ds = has_class c k) kids ->
  forall doc, render_dom (JFragment kids) = Some doc ->
  existsb (dom_has_class c) doc = existsb (has_class c) kids.
Proof.
  induction 1 as [|k rest Hk _ IH]; intros doc Hd.
  - injection Hd as <-. reflexivity.
  - rewrite render_dom_JFragment_cons in Hd.
    destruct (render_dom k) as [a|]; [|discriminate Hd].
    destruct (render_dom (JFragment rest)) as [b|]; [|discriminate Hd].
    injection Hd as <-. rewrite existsb_app. cbn [existsb].
    now rewrite (Hk a eq_refl), (IH b eq_refl).
Qed.

(** When the render goes through, the document has the classes of the tree. *)
Lemma rendered_classes c j :
  forall ds, render_dom j = Some ds -> existsb (dom_has_class c) ds = has_class c j.
Proof.
  induction j as [| | |s|n|name|name|tag cls attrs kids IH|kids IH|items IH]
    using jsx_children_ind; intros ds Hd;
    try (injection Hd as <-; reflexivity); try discriminate Hd.
  - simpl in Hd. destruct (truthy_string s); injection Hd as <-; reflexivity.
  - rewrite render_dom_JElem in Hd.
    destruct (render_dom (JFragment kids)) as [ks|] eqn:E; [|discriminate Hd].
    injection Hd as <-. cbn [existsb dom_has_class has_class].
    now rewrite orb_false_r, (rendered_children_classes c kids IH ks E).
  - now apply rendered_children_classes.
  - rewrite render_dom_JArray in Hd. now apply rendered_children_classes.
Qed.

(** A class is on the page when it is in the tree and the render does not
    throw. *)
Lemma on_page_spec c j : on_page c j = has_class c j && negb (holds_object j).
Proof.
  unfold on_page. destruct (render_dom j) as [ds|] eqn:E.
  - rewrite (rendered_classes c j ds E).
    destruct (holds_object j) eqn:H; [|now rewrite andb_true_r].
    apply render_dom_throws in H. congruence.
  - apply render_dom_throws in E. now rewrite E, andb_false_r.
Qed.

Lemma on_page_App c w : on_page c (App w) = has_class c (App w) && page_renders (app w).
Proof.
  rewrite on_page_spec, holds_object_App. unfold page_renders.
  now destruct (result (app w)).
Qed.

Lemma on_page_MusicRecommendations c recommendations playlists :
  on_page c (MusicRecommendations recommendations playlists) =
  has_class c (MusicRecommendations recommendations playlists).
Proof. now rewrite on_page_spec, holds_object_MusicRecommendations, andb_true_r. Qed.

Lemma on_page_MoodDisplay c moodAnalysis :
  on_page c (MoodDisplay moodAnalysis) =
  has_class c (MoodDisplay moodAnalysis) &&
  negb (existsb names_prototype (labels moodAnalysis)).
Proof. now rewrite on_page_spec, holds_object_MoodDisplay. Qed.

Lemma no_prototype_label l :
  existsb names_prototype l = false <->
  forall label, In label l -> toLowerCase label <> "__proto__".
Proof.
  split.
  - intros H label Hin Hl.
    assert (Ht : existsb names_prototype l = true)
      by (apply names_prototype_exists; now exists label).
    congruence.
  - intros H. destruct (existsb names_prototype l) eqn:E; [|reflexivity].
    apply names_prototype_exists in E as (label & Hin & Hl). now destruct (H label Hin).
Qed.

Lemma nothing_to_list_items {A} (m : maybe (list A)) :
  negb (nothing_to_list m) = true <-> exists x xs, m = Have (x :: xs).
Proof.
  destruct m as [| |[|x xs]]; simpl; split;
    try discriminate; try (intros (y & ys & H); discriminate H).
  - intros _. now exists x, xs.
  - reflexivity.
Qed.

(** ** Optional lists on the page *)

(** C10. The sections of the genre list and of the playlists are on the page
    exactly when the list is there and has an item, and with an empty list
    the page is the same as with the field absent, and as with [null]; so it
    is for the secondary moods as long as the mood panel renders.  But the
    panel does not render for every list: with the one secondary mood
    [__proto__] the emoji lookup yields an object and the render throws, so
    the section of a list that is there and not empty is not on the page.
    The section of the secondary moods is on the page exactly when the list
    has an item and no label of the panel lower-cases to [__proto__]. *)
Theorem optional_list_sections_on_page :
  (nothing_to_list (MoodAnalysis.secondary_moods (analysis_of "Calm" ["__proto__"])) = false /\
   render_dom (MoodDisplay (analysis_of "Calm" ["__proto__"])) = None /\
   on_page "secondary-moods" (MoodDisplay (analysis_of "Calm" ["__proto__"])) = false /\
   on_page "secondary-moods" (MoodDisplay (analysis_of "Calm" ["dreamy"])) = true) /\
  (forall recommendations playlists,
     on_page "genres" (MusicRecommendations recommendations playlists) = true <->
     exists g gs, Recommendations.genres recommendations = Have (g :: gs)) /\
  (forall recommendations playlists,
     on_page "playlists-container" (MusicRecommendations recommendations playlists) = true <->
     exists p ps, playlists = Have (p :: ps)) /\
  (forall moodAnalysis,
     on_page "secondary-moods" (MoodDisplay moodAnalysis) = true <->
     (exists m ms, MoodAnalysis.secondary_moods moodAnalysis = Have (m :: ms)) /\
     (forall label, In label (labels moodAnalysis) -> toLowerCase label <> "__proto__")) /\
  (forall mood description count tracks playlists,
     let page genres :=
       render_dom (MusicRecommendations
                     (Recommendations.mk mood description genres count tracks) playlists) in
     page (Have []) = page Undefined /\ page Null = page Undefined) /\
  (forall recommendations,
     let page playlists := render_dom (MusicRecommendations recommendations playlists) in
     page (Have []) = page Undefined /\ page Null = page Undefined) /\
  (forall mood confidence reasoning elements,
     let page secondary :=
       render_dom (MoodDisplay
                     (MoodAnalysis.mk mood confidence secondary reasoning elements)) in
     page (Have []) = page Undefined /\ page Null = page Undefined).
Proof.
  split; [repeat split; vm_compute; reflexivity|].
  split; [intros r p; rewrite on_page_MusicRecommendations, genres_section;
          apply nothing_to_list_items|].
  split; [intros r p; rewrite on_page_MusicRecommendations, playlists_section;
          apply nothing_to_list_items|].
  split.
  - intros m. rewrite on_page_MoodDisplay, secondary_moods_section, andb_true_iff,
      nothing_to_list_items, negb_true_iff, no_prototype_label. reflexivity.
  - repeat split; reflexivity.
Qed.

(** ** The page and the cells of App *)

(** X3. With results of the shape of the data model, the page renders unless
    a mood label of the stored result lower-cases to [__proto__], and then the
    document follows the cells of [App], each on its own: the spinner is in
    it exactly while the in-flight flag is set, the error panel exactly when
    the error is a non-empty message, the mood panel and the music panel
    exactly when a result is stored, and the reset button exactly when a
    result or a non-empty error is.  When the render throws, none of them is
    on the page.  With no result stored the page always renders; an error
    whose message is empty then shows neither the error panel nor the reset
    button. *)
Theorem page_follows_the_cells (w : World) :
  (render_dom (App w) = None <-> page_renders (app w) = false) /\
  on_page "loading" (App w) = analyzing (app w) && page_renders (app w) /\
  on_page "error-message" (App w) = error_shown (app w) && page_renders (app w) /\
  on_page "mood-display" (App w) = has_result (app w) && page_renders (app w) /\
  on_page "music-recommendations" (App w) = has_result (app w) && page_renders (app w) /\
  on_page "reset-button" (App w) = result_or_error (app w) && page_renders (app w) /\
  (result (app w) = None ->
   render_dom (App w) <> None /\
   on_page "loading" (App w) = analyzing (app w) /\
   on_page "error-message" (App w) = error_shown (app w) /\
   on_page "mood-display" (App w) = false /\
   on_page "music-recommendations" (App w) = false /\
   on_page "reset-button" (App w) = error_shown (app w)).
Proof.
  destruct (page_shows w) as (Hl & He & Hm & Hmu & Hr).
  rewrite !on_page_App, Hl, He, Hm, Hmu, Hr.
  assert (Hthrow : render_dom (App w) = None <-> page_renders (app w) = false).
  { rewrite render_dom_throws, holds_object_App. unfold page_renders.
    destruct (result (app w)); [symmetry; apply negb_false_iff|split; discriminate]. }
  split; [exact Hthrow|]. repeat (split; [reflexivity|]).
  intros Hres.
  assert (Hp : page_renders (app w) = true) by (unfold page_renders; now rewrite Hres).
  split; [rewrite Hthrow, Hp; discriminate|].
  unfold has_result, result_or_error, error_shown. rewrite Hp, Hres, !andb_true_r.
  now repeat split.
Qed.

Lemma page_follows_the_cells_witness :
  let w := step (FetchSettled 0 (Rejected "")) analyzing_world in
  result (app w) = None /\ error (app w) = Some "" /\
  render_dom (App w) <> None /\
  on_page "error-message" (App w) = false /\
  on_page "reset-button" (App w) = false.
Proof.
  intros w.
  pose proof (proj2 (proj2 (proj2 (proj2 (proj2 (proj2 (page_follows_the_cells w))))))
                eq_refl) as H.
  split; [reflexivity|]. split; [reflexivity|]. split; [apply H|].
  split; apply H.
Defined.

(** ** The response of a request in flight *)

Lemma app_settled id o w :
  in_flightb id w = true ->
  app (step (FetchSettled id o) w) =
  mkApp false (settled_result o (app w)) (settled_error o (app w)) (resetKey (app w)).
Proof. intros H. now rewrite app_step, H. Qed.






(** X5. When the request in flight itself fails (the promise of [fetch] is
    rejected), or its response has a status in 200-299 and a body that does
    not decode, the error stored is the message of that error as it came,
    not the fixed text, and the flag is put down; the result is left as it
    is.  With no result stored at that moment, the page shows the error panel
    and the reset button exactly when that message is not empty, and neither
    the spinner nor a panel of a result. *)
Theorem transport_error_stores_its_message (w : World) (id : nat) (o : FetchOutcome)
    (message : string) :
  in_flightb id w = true ->
  o = Rejected message \/
  (exists response, o = Resolved response /\ Response.ok response = true /\
                    Response.json response = Malformed message) ->
  let w' := step (FetchSettled id o) w in
  error (app w') = Some message /\
  analyzing (app w') = false /\
  result (app w') = result (app w) /\
  (result (app w) = None ->
   on_page "error-message" (App w') = truthy_string message /\
   on_page "reset-button" (App w') = truthy_string message /\
   on_page "mood-display" (App w') = false /\
   on_page "music-recommendations" (App w') = false /\
   on_page "loading" (App w') = false).
Proof.
  intros Hin Ho w'.
  assert (Happ : app w' = mkApp false (result (app w)) (Some message) (resetKey (app w))).
  { subst w'. rewrite (app_settled id _ w Hin).
    unfold settled_result, settled_error.
    destruct Ho as [->|(response & -> & Hok & Hjson)]; [reflexivity|].
    now rewrite Hok, Hjson. }
  destruct (page_shows w') as (Hl & He & Hm & Hmu & Hr).
  rewrite !on_page_App, Hl, He, Hm, Hmu, Hr.
  unfold page_renders, has_result, error_shown, result_or_error.
  rewrite Happ. cbn [analyzing result error].
  repeat (split; [reflexivity|]).
  intros ->. rewrite !andb_true_r. now repeat split.
Qed.

Lemma transport_error_stores_its_message_witness :
  let w' := step (FetchSettled 0 (Rejected "Failed to fetch")) analyzing_world in
  in_flightb 0 analyzing_world = true /\
  result (app analyzing_world) = None /\
  lifecycle (app w') = (false, None, Some "Failed to fetch") /\
  on_page "error-message" (App w') = true.
Proof.
  intros w'.
  pose proof (transport_error_stores_its_message analyzing_world 0
                (Rejected "Failed to fetch") "Failed to fetch" eq_refl
                (or_introl eq_refl)) as (He & Ha & Hr & H).
  specialize (H eq_refl).
  split; [reflexivity|]. split; [reflexivity|]. split; [reflexivity|].
  apply H.
Defined.

(** ** Optional sections of the mood panel *)

(** X14. As long as the mood panel renders, that is, no label of it
    lower-cases to [__proto__], the analysis text has its section on the page
    exactly when the reasoning is a non-empty string, and the visual elements
    have theirs exactly when the field is an object, even one without
    entries: unlike the lists, it is not tested for being empty.  When the
    render throws, neither is on the page.  An empty reasoning renders as an
    absent one. *)
Theorem mood_panel_optional_sections :
  (forall moodAnalysis,
     let renders := negb (existsb names_prototype (labels moodAnalysis)) in
     on_page "reasoning" (MoodDisplay moodAnalysis) =
       shown (MoodAnalysis.reasoning moodAnalysis) && renders /\
     on_page "visual-elements" (MoodDisplay moodAnalysis) =
       present (MoodAnalysis.visual_elements moodAnalysis) && renders) /\
  (forall mood confidence secondary elements,
     render_dom (MoodDisplay (MoodAnalysis.mk mood confidence secondary (Have "") elements))
     = render_dom (MoodDisplay (MoodAnalysis.mk mood confidence secondary Undefined elements))) /\
  (forall mood confidence secondary reasoning,
     let moodAnalysis := MoodAnalysis.mk mood confidence secondary reasoning (Have []) in
     on_page "elements-grid" (MoodDisplay moodAnalysis) =
       negb (existsb names_prototype (labels moodAnalysis))).
Proof.
  destruct mood_panel_sections_in_tree as (Htree & Hempty & Hgrid).
  split; [|split; [exact Hempty|]].
  - intros m renders. destruct (Htree m) as [Hr Hv].
    now rewrite !on_page_MoodDisplay, Hr, Hv.
  - intros mood confidence secondary reasoning m. subst m.
    now rewrite on_page_MoodDisplay, (Hgrid mood confidence secondary reasoning).
Qed.
